(** * A contacts address-book API: shallow embedding and verified properties

    The development follows the Python sources module by module:
    [models.py] (tables and their constraints), [security.py] (password
    hashing, JWT creation and checking), [email_verif.py], [image_upload.py],
    [crud.py] (the ORM calls) and [main.py] (the request handlers).

    The database is the pair of tables declared in [models.py]; every
    nullable column is an [option].  The SQLAlchemy session is modelled by a
    small state-and-exception monad over a [World] holding the committed
    tables, the mails handed to the SMTP server and the log of SQL statements
    sent to the database.  Third-party libraries (passlib's bcrypt context,
    python-jose) are section variables. *)

From Stdlib Require Import ZArith List String Ascii Bool Lia Permutation.
Import ListNotations.
Local Open Scope string_scope.
Local Open Scope Z_scope.

(** ** models.py *)

Module User.
(** [class User(Base)], table [users].  [id] is the primary key; [email]
    and [verification_code] are [unique=True]; the class maps no other
    column. *)
Record t := mk {
  id : Z;
  email : option string;
  hashed_password : option string;
  is_active : option bool;
  is_verified : option bool;
  verification_code : option string
}.
End User.

Module Contact.
(** [class Contact(Base)], table [contacts].  [email] is [unique=True],
    [owner_id] is a foreign key to [users.id]; [birthday] is a [Date],
    kept as its proleptic Gregorian ordinal. *)
Record t := mk {
  id : Z;
  first_name : option string;
  last_name : option string;
  email : option string;
  phone_number : option string;
  birthday : option Z;
  additional_info : option string;
  owner_id : option Z
}.
End Contact.

(** The committed state of the database: both tables in storage order and
    the two primary-key sequences (last value handed out). *)
Record Database := mkDatabase {
  users : list User.t;
  contacts : list Contact.t;
  users_id_seq : Z;
  contacts_id_seq : Z
}.

Definition empty_db : Database := mkDatabase [] [] 0 0.

(** ** SQL comparisons on nullable columns

    A comparison with NULL is not true, so the row is filtered out. *)

Definition sql_eq_str (col : option string) (v : string) : bool :=
  match col with Some s => String.eqb s v | None => false end.

Definition sql_eq_int (col : option Z) (v : Z) : bool :=
  match col with Some z => Z.eqb z v | None => false end.

Definition sql_ge (col : option Z) (v : Z) : bool :=
  match col with Some z => Z.leb v z | None => false end.

Definition sql_le (col : option Z) (v : Z) : bool :=
  match col with Some z => Z.leb z v | None => false end.

(** ** Integrity constraints of the schema *)

(** Values of a nullable unique column: NULLs never clash. *)
Fixpoint non_null {A} (l : list (option A)) : list A :=
  match l with
  | [] => []
  | Some a :: l' => a :: non_null l'
  | None :: l' => non_null l'
  end.

Fixpoint mem_str (s : string) (l : list string) : bool :=
  match l with
  | [] => false
  | x :: l' => String.eqb x s || mem_str s l'
  end.

Fixpoint mem_int (z : Z) (l : list Z) : bool :=
  match l with
  | [] => false
  | x :: l' => Z.eqb x z || mem_int z l'
  end.

Fixpoint nodup_str (l : list string) : bool :=
  match l with
  | [] => true
  | x :: l' => negb (mem_str x l') && nodup_str l'
  end.

Fixpoint nodup_int (l : list Z) : bool :=
  match l with
  | [] => true
  | x :: l' => negb (mem_int x l') && nodup_int l'
  end.

Definition user_ids (db : Database) : list Z := map User.id (users db).
Definition user_emails (db : Database) : list string :=
  non_null (map User.email (users db)).
Definition user_codes (db : Database) : list string :=
  non_null (map User.verification_code (users db)).
Definition contact_ids (db : Database) : list Z := map Contact.id (contacts db).
Definition contact_emails (db : Database) : list string :=
  non_null (map Contact.email (contacts db)).

(** [users.id] and [contacts.id] are primary keys. *)
Definition pk_users (db : Database) : bool := nodup_int (user_ids db).
Definition pk_contacts (db : Database) : bool := nodup_int (contact_ids db).
(** [unique=True] on [users.email], [users.verification_code] and
    [contacts.email]. *)
Definition unique_user_email (db : Database) : bool := nodup_str (user_emails db).
Definition unique_code (db : Database) : bool := nodup_str (user_codes db).
Definition unique_contact_email (db : Database) : bool :=
  nodup_str (contact_emails db).
(** [ForeignKey('users.id')] on [contacts.owner_id]. *)
Definition fk_owner (db : Database) : bool :=
  forallb (fun o => mem_int o (user_ids db))
          (non_null (map Contact.owner_id (contacts db))).
(** The sequences are ahead of every key already stored. *)
Definition seq_ahead (db : Database) : bool :=
  forallb (fun i => Z.leb i (users_id_seq db)) (user_ids db)
  && forallb (fun i => Z.leb i (contacts_id_seq db)) (contact_ids db).

Definition db_ok (db : Database) : bool :=
  pk_users db && pk_contacts db && unique_user_email db && unique_code db
  && unique_contact_email db && fk_owner db && seq_ahead db.

(** ** The session monad *)

Inductive exn :=
| HTTPException (status_code : Z) (detail : string)
| IntegrityError
| DataError
| OverflowError
| ValidationError
| InvalidRequestError.

Inductive outcome (A : Type) :=
| Ret (a : A)
| Raise (e : exn).
Arguments Ret {A} a.
Arguments Raise {A} e.

Inductive table := Users | Contacts.

(** One SQL statement reaching the database. *)
Inductive sql :=
| SELECT (t : table)
| INSERT (t : table)
| UPDATE (t : table)
| DELETE (t : table).

(** A message handed to the SMTP server by [server.sendmail]. *)
Record Mail := mkMail {
  mail_to : string;
  mail_subject : string;
  mail_body : string
}.

Record World := mkWorld {
  w_db : Database;
  w_outbox : list Mail;
  w_log : list sql
}.

Definition M (A : Type) : Type := World -> outcome A * World.

Definition ret {A} (a : A) : M A := fun w => (Ret a, w).
Definition raise {A} (e : exn) : M A := fun w => (Raise e, w).
Definition bind {A B} (m : M A) (k : A -> M B) : M B :=
  fun w =>
    match m w with
    | (Ret a, w') => k a w'
    | (Raise e, w') => (Raise e, w')
    end.

Declare Scope session_scope.
Delimit Scope session_scope with session.
Notation "x <- m ;; k" := (bind m (fun x => k))
  (at level 61, m at next level, right associativity) : session_scope.
Notation "m ;; k" := (bind m (fun _ => k))
  (at level 61, right associativity) : session_scope.
Local Open Scope session_scope.

(** Record that a statement was sent. *)
Definition emit (q : sql) : M unit :=
  fun w => (Ret tt, mkWorld (w_db w) (w_outbox w) (w_log w ++ [q])).

Definition get_db : M Database := fun w => (Ret (w_db w), w).

Definition put_db (db : Database) : M unit :=
  fun w => (Ret tt, mkWorld db (w_outbox w) (w_log w)).

Definition deliver (m : Mail) : M unit :=
  fun w => (Ret tt, mkWorld (w_db w) (w_outbox w ++ [m]) (w_log w)).

(** A fresh world around a database. *)
Definition world_of (db : Database) : World := mkWorld db [] [].

(** ** The ORM calls used by the sources *)

Definition opt_mem_str (v : option string) (l : list string) : bool :=
  match v with Some s => mem_str s l | None => false end.

Definition opt_mem_int (v : option Z) (l : list Z) : bool :=
  match v with Some z => mem_int z l | None => true end.

(** [db.query(models.User).filter(p).first()] *)
Definition query_user_first (p : User.t -> bool) : M (option User.t) :=
  emit (SELECT Users) ;;
  db <- get_db ;;
  ret (find p (users db)).

(** [db.query(models.Contact).filter(p).first()] *)
Definition query_contact_first (p : Contact.t -> bool) : M (option Contact.t) :=
  emit (SELECT Contacts) ;;
  db <- get_db ;;
  ret (find p (contacts db)).

(** [db.query(models.Contact).filter(p).all()] *)
Definition query_contact_all (p : Contact.t -> bool) : M (list Contact.t) :=
  emit (SELECT Contacts) ;;
  db <- get_db ;;
  ret (filter p (contacts db)).

(** [.offset(skip).limit(limit)]: the server rejects a negative OFFSET or
    LIMIT. *)
Definition offset_limit {A} (skip limit : Z) (rows : list A) : M (list A) :=
  if (skip <? 0) || (limit <? 0) then raise DataError
  else ret (firstn (Z.to_nat limit) (skipn (Z.to_nat skip) rows)).

(** [db.query(models.Contact).filter(p).offset(skip).limit(limit).all()] *)
Definition query_contact_page (p : Contact.t -> bool) (skip limit : Z)
  : M (list Contact.t) :=
  emit (SELECT Contacts) ;;
  db <- get_db ;;
  offset_limit skip limit (filter p (contacts db)).

(** [db.add(models.User(email=.., hashed_password=.., verification_code=..));
    db.commit()]: the key comes from the sequence, [is_active] and
    [is_verified] from the column defaults; the INSERT is refused when a
    primary key or a unique column clashes. *)
Definition add_commit_user (email hashed code : option string) : M Z :=
  emit (INSERT Users) ;;
  db <- get_db ;;
  let pk := users_id_seq db + 1 in
  let row := User.mk pk email hashed (Some true) (Some false) code in
  if mem_int pk (user_ids db)
     || opt_mem_str email (user_emails db)
     || opt_mem_str code (user_codes db)
  then raise IntegrityError
  else put_db (mkDatabase (users db ++ [row]) (contacts db)
                          pk (contacts_id_seq db)) ;;
       ret pk.

(** [db.add(models.Contact(..)); db.commit()] *)
Definition add_commit_contact (row : Z -> Contact.t) : M Z :=
  emit (INSERT Contacts) ;;
  db <- get_db ;;
  let pk := contacts_id_seq db + 1 in
  if mem_int pk (contact_ids db)
     || opt_mem_str (Contact.email (row pk)) (contact_emails db)
     || negb (opt_mem_int (Contact.owner_id (row pk)) (user_ids db))
  then raise IntegrityError
  else put_db (mkDatabase (users db) (contacts db ++ [row pk])
                          (users_id_seq db) pk) ;;
       ret pk.

(** [db.refresh(obj)]: reload the row by primary key. *)
Definition refresh_user (pk : Z) : M User.t :=
  emit (SELECT Users) ;;
  db <- get_db ;;
  match find (fun u => User.id u =? pk) (users db) with
  | Some u => ret u
  | None => raise InvalidRequestError
  end.

Definition refresh_contact (pk : Z) : M Contact.t :=
  emit (SELECT Contacts) ;;
  db <- get_db ;;
  match find (fun c => Contact.id c =? pk) (contacts db) with
  | Some c => ret c
  | None => raise InvalidRequestError
  end.

Definition user_eq_dec (a b : User.t) : {a = b} + {a <> b}.
Proof. repeat decide equality. Defined.

Definition contact_eq_dec (a b : Contact.t) : {a = b} + {a <> b}.
Proof. repeat decide equality. Defined.

(** [db.commit()] after attributes of a loaded user were assigned: the
    flush sends [UPDATE users SET .. WHERE users.id = pk] when a mapped
    attribute changed, and nothing otherwise.  [set] must leave [id] and
    [email] alone (the sources only assign [is_verified] and
    [verification_code]); a non-NULL code is checked against the other rows. *)
Definition commit_user (u : User.t) (set : User.t -> User.t) : M unit :=
  if user_eq_dec (set u) u then ret tt
  else
    emit (UPDATE Users) ;;
    db <- get_db ;;
    let pk := User.id u in
    let others := filter (fun r => negb (User.id r =? pk)) (users db) in
    if opt_mem_str (User.verification_code (set u))
                   (non_null (map User.verification_code others))
    then raise IntegrityError
    else put_db (mkDatabase
                   (map (fun r => if User.id r =? pk then set r else r) (users db))
                   (contacts db) (users_id_seq db) (contacts_id_seq db)).

(** The same for a loaded contact; [set] must leave [id] and [owner_id]
    alone, and the new e-mail is checked against the other rows. *)
Definition commit_contact (c : Contact.t) (set : Contact.t -> Contact.t) : M unit :=
  if contact_eq_dec (set c) c then ret tt
  else
    emit (UPDATE Contacts) ;;
    db <- get_db ;;
    let pk := Contact.id c in
    let others := filter (fun r => negb (Contact.id r =? pk)) (contacts db) in
    if opt_mem_str (Contact.email (set c))
                   (non_null (map Contact.email others))
    then raise IntegrityError
    else put_db (mkDatabase (users db)
                   (map (fun r => if Contact.id r =? pk then set r else r)
                        (contacts db))
                   (users_id_seq db) (contacts_id_seq db)).

(** [db.delete(obj); db.commit()]:
    [DELETE FROM contacts WHERE contacts.id = pk]. *)
Definition delete_commit_contact (c : Contact.t) : M unit :=
  emit (DELETE Contacts) ;;
  db <- get_db ;;
  put_db (mkDatabase (users db)
            (filter (fun r => negb (Contact.id r =? Contact.id c)) (contacts db))
            (users_id_seq db) (contacts_id_seq db)).

(** ** schemas.py *)

(** [ContactBase] as received by [ContactCreate]: [additional_info]
    defaults to [None]. *)
Record ContactCreate := mkContactCreate {
  cc_first_name : string;
  cc_last_name : string;
  cc_email : string;
  cc_phone_number : string;
  cc_birthday : Z;
  cc_additional_info : option string
}.

(** [ContactUpdate]: the five required fields are always set;
    [additional_info] is [None] when the request left it unset, which
    [dict(exclude_unset=True)] then omits. *)
Record ContactUpdate := mkContactUpdate {
  cu_first_name : string;
  cu_last_name : string;
  cu_email : string;
  cu_phone_number : string;
  cu_birthday : Z;
  cu_additional_info : option (option string)
}.

Record UserCreate := mkUserCreate {
  uc_email : string;
  uc_password : string
}.

Record Token := mkToken {
  access_token : string;
  token_type : string
}.

Record TokenData := mkTokenData {
  td_email : option string
}.

(** ** datetime *)

(** [date.min.toordinal()] and [date.max.toordinal()]. *)
Definition MINORDINAL : Z := 1.
Definition MAXORDINAL : Z := 3652059.

(** [timedelta(days=n)] raises [OverflowError] beyond 999999999 days. *)
Definition timedelta_days (n : Z) : M Z :=
  if Z.abs n <=? 999999999 then ret n else raise OverflowError.

(** [d + timedelta]: [OverflowError] outside [date.min .. date.max]. *)
Definition date_add (d delta : Z) : M Z :=
  if (MINORDINAL <=? d + delta) && (d + delta <=? MAXORDINAL)
  then ret (d + delta) else raise OverflowError.

(** [datetime] values are microseconds since the epoch, [timedelta]s are
    microseconds. *)
Definition timedelta_minutes (m : Z) : Z := m * 60 * 1000000.

(** ** Python values carried by a JWT claims dict *)

Inductive pyval :=
| PStr (s : string)
| PInt (z : Z)
| PDatetime (us : Z)
| PNone.

(** A [dict] with string keys, in insertion order. *)
Definition pydict := list (string * pyval).

Fixpoint dict_get (d : pydict) (k : string) : option pyval :=
  match d with
  | [] => None
  | (k', v) :: d' => if String.eqb k' k then Some v else dict_get d' k
  end.

(** [d.update({k: v})]: an existing key keeps its place. *)
Fixpoint dict_update (d : pydict) (k : string) (v : pyval) : pydict :=
  match d with
  | [] => [(k, v)]
  | (k', v') :: d' =>
      if String.eqb k' k then (k, v) :: d' else (k', v') :: dict_update d' k v
  end.

(** ** security.py *)

Module security.
Section Security.
(** [pwd_context.hash] with the salt it draws, and [pwd_context.verify]
    on an identified hash. *)
Variable bcrypt_hash : string -> string -> string.
Variable bcrypt_verify : string -> string -> bool.
(** [jose.jwt.encode(claims, key, algorithm)] and
    [jose.jwt.decode(token, key, algorithms)] read at a given clock;
    [None] stands for a raised [JWTError]. *)
Variable jwt_encode : pydict -> string -> string -> string.
Variable jwt_decode : string -> string -> list string -> Z -> option pydict.

Definition SECRET_KEY : string := "Bjgji6930".
Definition ALGORITHM : string := "HS256".
Definition ACCESS_TOKEN_EXPIRE_MINUTES : Z := 30.

Definition get_password_hash (salt password : string) : string :=
  bcrypt_hash salt password.

(** [CryptContext.verify] answers [False] for a missing hash. *)
Definition verify_password (plain_password : string)
           (hashed_password : option string) : bool :=
  match hashed_password with
  | Some h => bcrypt_verify plain_password h
  | None => false
  end.

(** [if expires_delta:] is false for [None] and for a zero timedelta. *)
Definition create_access_token (utcnow : Z) (data : pydict)
           (expires_delta : option Z) : string :=
  let to_encode := data in
  let expire :=
    match expires_delta with
    | Some d => if d =? 0 then utcnow + timedelta_minutes 15 else utcnow + d
    | None => utcnow + timedelta_minutes 15
    end in
  let to_encode := dict_update to_encode "exp" (PDatetime expire) in
  jwt_encode to_encode SECRET_KEY ALGORITHM.

(** [TokenData(email=email)] validates a [str]; any other value is a
    pydantic error, which the [except JWTError] clause does not catch. *)
Definition verify_token (utcnow : Z) (token : string)
           (credentials_exception : exn) : M TokenData :=
  match jwt_decode token SECRET_KEY [ALGORITHM] utcnow with
  | Some payload =>
      match dict_get payload "sub" with
      | None => raise credentials_exception
      | Some PNone => raise credentials_exception
      | Some (PStr email) => ret (mkTokenData (Some email))
      | Some _ => raise ValidationError
      end
  | None => raise credentials_exception
  end.

(** Returns [False] (here [None]) or the user. *)
Definition authenticate_user (email password : string) : M (option User.t) :=
  user <- query_user_first (fun u => sql_eq_str (User.email u) email) ;;
  match user with
  | None => ret None
  | Some u =>
      if negb (verify_password password (User.hashed_password u))
      then ret None
      else ret (Some u)
  end.

Definition get_current_user (utcnow : Z) (token : string) : M User.t :=
  let credentials_exception :=
    HTTPException 401 "Could not validate credentials" in
  token_data <- verify_token utcnow token credentials_exception ;;
  user <- query_user_first
            (fun u => match td_email token_data with
                      | Some e => sql_eq_str (User.email u) e
                      | None => match User.email u with
                                | None => true | Some _ => false end
                      end) ;;
  match user with
  | None => raise credentials_exception
  | Some u => ret u
  end.
End Security.
End security.

(** ** email_verif.py *)

Definition send_verification_email (email verification_code : string) : M unit :=
  let body := ("Your verification code is: " ++ verification_code)%string in
  deliver (mkMail email "Verification Code" body).

(** ** crud.py *)

(** A loaded [models.User] object: its mapped columns and the plain Python
    attribute [avatar_url] that [update_user_avatar] assigns.  No column of
    [models.User] backs that attribute. *)
Record UserInstance := mkUserInstance {
  columns : User.t;
  avatar_url : option string
}.

Definition ascii_uppercase : string := "ABCDEFGHIJKLMNOPQRSTUVWXYZ".
Definition digits : string := "0123456789".

(** [random.choices(population, k=k)]: the i-th draw [floor(random() * n)]
    is an index below [n = len(population)]; [rng i] is the i-th draw
    before reduction. *)
Definition random_choices (rng : nat -> nat) (population : list ascii) (k : nat)
  : list ascii :=
  map (fun i => nth (Nat.modulo (rng i) (List.length population)) population "000"%char)
      (seq 0 k).

Module crud.
Section Crud.
Variable bcrypt_hash : string -> string -> string.
(** [cloudinary.uploader.upload(image_file)['url']] *)
Variable cloudinary_upload : string -> string.

Definition code_generation (rng : nat -> nat) (length : nat) : string :=
  string_of_list_ascii
    (random_choices rng (list_ascii_of_string (ascii_uppercase ++ digits))
                    length).

Definition get_contacts (skip limit : Z) : M (list Contact.t) :=
  query_contact_page (fun _ => true) skip limit.

Definition create_contact (contact : ContactCreate) (user_id : Z)
  : M Contact.t :=
  pk <- add_commit_contact
          (fun pk => Contact.mk pk
                       (Some (cc_first_name contact))
                       (Some (cc_last_name contact))
                       (Some (cc_email contact))
                       (Some (cc_phone_number contact))
                       (Some (cc_birthday contact))
                       (cc_additional_info contact)
                       (Some user_id)) ;;
  refresh_contact pk.

Definition get_user_contacts (user_id : Z) (skip limit : Z)
  : M (list Contact.t) :=
  query_contact_page (fun c => sql_eq_int (Contact.owner_id c) user_id)
                     skip limit.

Definition get_contact (contact_id user_id : Z) : M (option Contact.t) :=
  query_contact_first
    (fun c => (Contact.id c =? contact_id)
              && sql_eq_int (Contact.owner_id c) user_id).

(** [for key, value in contact.dict(exclude_unset=True).items():
    setattr(db_contact, key, value)] *)
Definition setattrs (contact : ContactUpdate) (c : Contact.t) : Contact.t :=
  Contact.mk (Contact.id c)
             (Some (cu_first_name contact))
             (Some (cu_last_name contact))
             (Some (cu_email contact))
             (Some (cu_phone_number contact))
             (Some (cu_birthday contact))
             (match cu_additional_info contact with
              | Some v => v
              | None => Contact.additional_info c
              end)
             (Contact.owner_id c).

Definition update_contact (contact_id : Z) (contact : ContactUpdate)
           (user_id : Z) : M (option Contact.t) :=
  db_contact <- get_contact contact_id user_id ;;
  match db_contact with
  | Some c =>
      commit_contact c (setattrs contact) ;;
      c' <- refresh_contact (Contact.id c) ;;
      ret (Some c')
  | None => ret None
  end.

Definition delete_contact (contact_id user_id : Z) : M (option Contact.t) :=
  db_contact <- get_contact contact_id user_id ;;
  match db_contact with
  | Some c => delete_commit_contact c ;; ret (Some c)
  | None => ret None
  end.

Definition get_user_by_email (email : string) : M (option User.t) :=
  query_user_first (fun u => sql_eq_str (User.email u) email).

Definition create_user (salt : string) (rng : nat -> nat) (user : UserCreate)
  : M User.t :=
  let fake_hashed_password :=
    security.get_password_hash bcrypt_hash salt (uc_password user) in
  let verification_code := code_generation rng 6 in
  pk <- add_commit_user (Some (uc_email user)) (Some fake_hashed_password)
                        (Some verification_code) ;;
  db_user <- refresh_user pk ;;
  send_verification_email (uc_email user) verification_code ;;
  ret db_user.

Definition get_upcoming_birthdays (today : Z) (user_id : Z) (days : Z)
  : M (list Contact.t) :=
  delta <- timedelta_days days ;;
  end_date <- date_add today delta ;;
  query_contact_all
    (fun c => sql_eq_int (Contact.owner_id c) user_id
              && sql_ge (Contact.birthday c) today
              && sql_le (Contact.birthday c) end_date).

(** [user.avatar_url = avatar_url] assigns an attribute that is not a
    mapped column, so the commit has nothing to flush. *)
Definition update_user_avatar (user_id : Z) (image_file : string)
  : M (option UserInstance) :=
  user <- query_user_first (fun u => User.id u =? user_id) ;;
  match user with
  | Some u =>
      let avatar_url := cloudinary_upload image_file in
      commit_user u (fun r => r) ;;
      u' <- refresh_user (User.id u) ;;
      ret (Some (mkUserInstance u' (Some avatar_url)))
  | None => ret None
  end.
End Crud.
End crud.

(** ** main.py *)

Module main.
Section Main.
Variable bcrypt_hash : string -> string -> string.
Variable bcrypt_verify : string -> string -> bool.
Variable jwt_encode : pydict -> string -> string -> string.
Variable jwt_decode : string -> string -> list string -> Z -> option pydict.
Variable cloudinary_upload : string -> string.

(** [POST /users/{user_id}/avatar] *)
Definition update_avatar (user_id : Z) (file : string) (current_user : User.t)
  : M (option UserInstance) :=
  if negb (user_id =? User.id current_user)
  then raise (HTTPException 403 "Not authorized to update this user's avatar")
  else crud.update_user_avatar cloudinary_upload user_id file.

(** [user.is_verified = True; user.verification_code = None] *)
Definition mark_verified (u : User.t) : User.t :=
  User.mk (User.id u) (User.email u) (User.hashed_password u)
          (User.is_active u) (Some true) None.

(** [GET /verify/{verification_code}] *)
Definition verify_email (verification_code : string) : M string :=
  user <- query_user_first
            (fun u => sql_eq_str (User.verification_code u) verification_code) ;;
  match user with
  | None => raise (HTTPException 404 "User not found")
  | Some u =>
      commit_user u mark_verified ;;
      ret "Email successfully verified"
  end.

(** [POST /users/] *)
Definition create_user (salt : string) (rng : nat -> nat) (user : UserCreate)
  : M User.t :=
  db_user <- crud.get_user_by_email (uc_email user) ;;
  match db_user with
  | Some _ => raise (HTTPException 409 "Email already registered")
  | None => crud.create_user bcrypt_hash salt rng user
  end.

(** The value of [user.email] placed under ["sub"]. *)
Definition py_of_column (v : option string) : pyval :=
  match v with Some s => PStr s | None => PNone end.

(** [POST /token] *)
Definition login_for_access_token (utcnow : Z) (username password : string)
  : M Token :=
  user <- security.authenticate_user bcrypt_verify username password ;;
  match user with
  | None => raise (HTTPException 401 "Incorrect username or password")
  | Some u =>
      let access_token_expires :=
        timedelta_minutes security.ACCESS_TOKEN_EXPIRE_MINUTES in
      let access_token :=
        security.create_access_token jwt_encode utcnow
          [("sub", py_of_column (User.email u))]
          (Some access_token_expires) in
      ret (mkToken access_token "bearer")
  end.

(** [POST /contacts/]; the [5/minute] limit of the decorator is a matter of
    wall-clock time and is left out. *)
Definition create_contact (contact : ContactCreate) (current_user : User.t)
  : M Contact.t :=
  crud.create_contact contact (User.id current_user).

(** [GET /contacts/] *)
Definition read_contacts (skip limit : Z) (current_user : User.t)
  : M (list Contact.t) :=
  contacts <- crud.get_user_contacts (User.id current_user) skip limit ;;
  ret contacts.

(** [GET /contacts/{contact_id}] *)
Definition read_contact (contact_id : Z) (current_user : User.t)
  : M Contact.t :=
  db_contact <- crud.get_contact contact_id (User.id current_user) ;;
  match db_contact with
  | None => raise (HTTPException 404 "Contact not found")
  | Some c => ret c
  end.

(** [PUT /contacts/{contact_id}] *)
Definition update_contact (contact_id : Z) (contact : ContactUpdate)
           (current_user : User.t) : M (option Contact.t) :=
  crud.update_contact contact_id contact (User.id current_user).

(** [DELETE /contacts/{contact_id}] *)
Definition delete_contact (contact_id : Z) (current_user : User.t)
  : M (option Contact.t) :=
  crud.delete_contact contact_id (User.id current_user).

(** [GET /contacts/upcoming_birthdays/]: [days] keeps its default 7. *)
Definition get_upcoming_birthdays (today : Z) (current_user : User.t)
  : M (list Contact.t) :=
  crud.get_upcoming_birthdays today (User.id current_user) 7.

(** *** The routes of [app] *)

(** What a request carries besides the state of the world: its
    parameters and the values the handler reads from the clock, the
    random generator and the salt generator. *)
Inductive request :=
| PostAvatar (user_id : Z) (file : string) (current_user : User.t)
| GetVerify (verification_code : string)
| PostUsers (salt : string) (rng : nat -> nat) (user : UserCreate)
| PostToken (utcnow : Z) (username password : string)
| PostContacts (contact : ContactCreate) (current_user : User.t)
| GetContacts (skip limit : Z) (current_user : User.t)
| GetContact (contact_id : Z) (current_user : User.t)
| PutContact (contact_id : Z) (contact : ContactUpdate) (current_user : User.t)
| DeleteContact (contact_id : Z) (current_user : User.t)
| GetUpcomingBirthdays (today : Z) (current_user : User.t).

Inductive response :=
| RInstance (u : option UserInstance)
| RMessage (m : string)
| RUser (u : User.t)
| RToken (t : Token)
| RContact (c : Contact.t)
| RMaybeContact (c : option Contact.t)
| RContacts (l : list Contact.t).

Definition app (r : request) : M response :=
  match r with
  | PostAvatar user_id file cu =>
      x <- update_avatar user_id file cu ;; ret (RInstance x)
  | GetVerify code => x <- verify_email code ;; ret (RMessage x)
  | PostUsers salt rng user => x <- create_user salt rng user ;; ret (RUser x)
  | PostToken utcnow username password =>
      x <- login_for_access_token utcnow username password ;; ret (RToken x)
  | PostContacts contact cu => x <- create_contact contact cu ;; ret (RContact x)
  | GetContacts skip limit cu => x <- read_contacts skip limit cu ;; ret (RContacts x)
  | GetContact contact_id cu => x <- read_contact contact_id cu ;; ret (RContact x)
  | PutContact contact_id contact cu =>
      x <- update_contact contact_id contact cu ;; ret (RMaybeContact x)
  | DeleteContact contact_id cu =>
      x <- delete_contact contact_id cu ;; ret (RMaybeContact x)
  | GetUpcomingBirthdays today cu =>
      x <- get_upcoming_birthdays today cu ;; ret (RContacts x)
  end.
End Main.
End main.

(** * Vocabulary of the properties and sample data *)

Local Open Scope list_scope.

(** The contacts the query is meant to return: owned by the user, with a
    birthday between today and today plus [days], both included. *)
Definition upcoming (today days user_id : Z) (c : Contact.t) : Prop :=
  Contact.owner_id c = Some user_id /\
  exists b, Contact.birthday c = Some b /\ today <= b <= today + days.

(** The single comparison the query filters by. *)
Definition in_window (today days user_id : Z) (c : Contact.t) : bool :=
  sql_eq_int (Contact.owner_id c) user_id
  && sql_ge (Contact.birthday c) today
  && sql_le (Contact.birthday c) (today + days).

Definition sample_user : User.t :=
  User.mk 1 (Some "ann@example.com") (Some "$2b$12$hash") (Some true)
          (Some false) (Some "AB12CD").

Definition sample_contact (pk : Z) (mail : string) (bday : Z) (owner : Z)
  : Contact.t :=
  Contact.mk pk (Some "Bob") (Some "Ray") (Some mail) (Some "555")
             (Some bday) None (Some owner).

Definition sample_db : Database :=
  mkDatabase
    [sample_user;
     User.mk 2 (Some "eve@example.com") (Some "$2b$12$other") (Some true)
             (Some true) None]
    [sample_contact 1 "b1@example.com" 739000 1;
     sample_contact 2 "b2@example.com" 739005 1;
     sample_contact 3 "b3@example.com" 739003 2;
     sample_contact 4 "b4@example.com" 739008 1]
    2 4.

(** The contacts of the other users. *)
Definition foreign (user_id : Z) (c : Contact.t) : bool :=
  negb (sql_eq_int (Contact.owner_id c) user_id).

Definition logged (w : World) (qs : list sql) : World :=
  mkWorld (w_db w) (w_outbox w) (w_log w ++ qs).

Definition with_users (db : Database) (l : list User.t) : Database :=
  mkDatabase l (contacts db) (users_id_seq db) (contacts_id_seq db).

Definition with_contacts (db : Database) (l : list Contact.t) : Database :=
  mkDatabase (users db) l (users_id_seq db) (contacts_id_seq db).

(** [UPDATE .. WHERE id = pk] on a table. *)
Definition rewrite_users (pk : Z) (set : User.t -> User.t) (l : list User.t)
  : list User.t :=
  map (fun r => if User.id r =? pk then set r else r) l.

Definition rewrite_contacts (pk : Z) (set : Contact.t -> Contact.t)
           (l : list Contact.t) : list Contact.t :=
  map (fun r => if Contact.id r =? pk then set r else r) l.

(** The filter of [crud.get_contact]. *)
Definition owns (contact_id user_id : Z) (c : Contact.t) : bool :=
  (Contact.id c =? contact_id) && sql_eq_int (Contact.owner_id c) user_id.

(** The filter of [main.verify_email]. *)
Definition has_code (code : string) (u : User.t) : bool :=
  sql_eq_str (User.verification_code u) code.

Definition sample_update : ContactUpdate :=
  mkContactUpdate "Bob" "Ray" "new@example.com" "556" 739001 None.

(** The filter of [authenticate_user] and [get_user_by_email]. *)
Definition has_email (email : string) (u : User.t) : bool :=
  sql_eq_str (User.email u) email.

Definition unauthorized : exn :=
  HTTPException 401 "Incorrect username or password".

Definition credentials_exception : exn :=
  HTTPException 401 "Could not validate credentials".

(** The expiry [create_access_token] writes into the token. *)
Definition expiry_of (utcnow : Z) (expires_delta : option Z) : Z :=
  match expires_delta with
  | Some d => if d =? 0 then utcnow + timedelta_minutes 15 else utcnow + d
  | None => utcnow + timedelta_minutes 15
  end.

(** What python-jose promises for the claims this program encodes: a token
    made by [jwt.encode] for a subject and an expiry decodes, under the same
    key and algorithm and while the clock (in whole seconds) has not passed
    the expiry, to the subject and the expiry as an integer timestamp. *)
Definition jose_round_trip
           (jwt_encode : pydict -> string -> string -> string)
           (jwt_decode : string -> string -> list string -> Z -> option pydict)
  : Prop :=
  forall (sub : string) (expire utcnow : Z),
    utcnow / 1000000 <= expire / 1000000 ->
    jwt_decode
      (jwt_encode [("sub", PStr sub); ("exp", PDatetime expire)]
                  security.SECRET_KEY security.ALGORITHM)
      security.SECRET_KEY [security.ALGORITHM] utcnow
    = Some [("sub", PStr sub); ("exp", PInt (expire / 1000000))].

(** A reference codec for the JWT interface: a token is a sign, the expiry
    in whole seconds in unary, a ["0"] and then the subject.  It shows that
    the round-trip contract can be met. *)
Fixpoint ones (n : nat) : string :=
  match n with
  | O => EmptyString
  | S n' => String "1" (ones n')
  end.

Fixpoint count_ones (s : string) : nat * string :=
  match s with
  | EmptyString => (O, EmptyString)
  | String c r =>
      if Ascii.eqb c "1"
      then let (n, t) := count_ones r in (S n, t)
      else (O, r)
  end.

Definition ref_jwt_encode (claims : pydict) (key alg : string) : string :=
  match dict_get claims "sub", dict_get claims "exp" with
  | Some (PStr s), Some (PDatetime e) =>
      let z := e / 1000000 in
      String (if z <? 0 then "-" else "+")
             (ones (Z.abs_nat z) ++ String "0" s)%string
  | _, _ => EmptyString
  end.

Definition ref_jwt_decode (token key : string) (algs : list string) (utcnow : Z)
  : option pydict :=
  match token with
  | EmptyString => None
  | String sg rest =>
      let (n, s) := count_ones rest in
      let z := if Ascii.eqb sg "-" then - Z.of_nat n else Z.of_nat n in
      if utcnow / 1000000 <=? z
      then Some [("sub", PStr s); ("exp", PInt z)]
      else None
  end.

Definition alphabet : list ascii :=
  list_ascii_of_string (ascii_uppercase ++ digits).

(** A string of [n] characters, all upper-case letters or digits. *)
Definition is_code (n : nat) (s : string) : Prop :=
  String.length s = n
  /\ Forall (fun c => In c alphabet) (list_ascii_of_string s).

Definition conflict : exn := HTTPException 409 "Email already registered".

(** The row [crud.create_user] stores. *)
Definition new_user (bcrypt_hash : string -> string -> string) (db : Database)
           (salt : string) (rng : nat -> nat) (user : UserCreate) : User.t :=
  User.mk (users_id_seq db + 1) (Some (uc_email user))
          (Some (security.get_password_hash bcrypt_hash salt (uc_password user)))
          (Some true) (Some false) (Some (crud.code_generation rng 6)).

(** An instance of the hashing interface for concrete runs: the scheme
    prefix, the salt and the secret. *)
Definition ref_bcrypt_hash (salt password : string) : string :=
  ("$2b$12$" ++ salt ++ password)%string.

(** Draws spelling ["AB12CD"], the code of [sample_user]. *)
Definition colliding_rng (i : nat) : nat := nth i [0; 1; 27; 28; 2; 3]%nat 0%nat.

(** Draws spelling ["QWERTY"]. *)
Definition fresh_rng (i : nat) : nat := nth i [16; 22; 4; 17; 19; 24]%nat 0%nat.

Definition sample_signup : UserCreate := mkUserCreate "new@example.com" "secret".

Definition forbidden : exn :=
  HTTPException 403 "Not authorized to update this user's avatar".

Definition sample_upload (file : string) : string :=
  "http://res.cloudinary.com/demo/image/upload/avatar.png".

Definition is_mutation (q : sql) : bool :=
  match q with SELECT _ => false | _ => true end.

(** The handlers that only read. *)
Definition read_only (r : main.request) : bool :=
  match r with
  | main.PostToken _ _ _ | main.GetContacts _ _ _ | main.GetContact _ _
  | main.GetUpcomingBirthdays _ _ => true
  | _ => false
  end.

(** From world [w] to [w'] at most three statements were sent, at most one
    of them a mutation; when [ro] holds, at most one statement, a SELECT,
    and the database is unchanged. *)
Definition thin (ro : bool) (w w' : World) : Prop :=
  exists qs,
    w_log w' = w_log w ++ qs
    /\ (List.length qs <= 3)%nat
    /\ (List.length (filter is_mutation qs) <= 1)%nat
    /\ (ro = true ->
        (List.length qs <= 1)%nat
        /\ filter is_mutation qs = []
        /\ w_db w' = w_db w).

(** The schema constraints as propositions. *)
Definition consistent (db : Database) : Prop :=
  NoDup (user_ids db)
  /\ NoDup (contact_ids db)
  /\ NoDup (user_emails db)
  /\ NoDup (user_codes db)
  /\ NoDup (contact_emails db)
  /\ (forall o, In o (non_null (map Contact.owner_id (contacts db))) ->
                In o (user_ids db))
  /\ (forall i, In i (user_ids db) -> i <= users_id_seq db)
  /\ (forall i, In i (contact_ids db) -> i <= contacts_id_seq db).

(** The states the API can reach from an empty database, one request
    after another. *)
Inductive reachable
          (bcrypt_hash : string -> string -> string)
          (bcrypt_verify : string -> string -> bool)
          (jwt_encode : pydict -> string -> string -> string)
          (cloudinary_upload : string -> string) : World -> Prop :=
| reach_empty :
    reachable bcrypt_hash bcrypt_verify jwt_encode cloudinary_upload
              (world_of empty_db)
| reach_request (w : World) (r : main.request) :
    reachable bcrypt_hash bcrypt_verify jwt_encode cloudinary_upload w ->
    reachable bcrypt_hash bcrypt_verify jwt_encode cloudinary_upload
              (snd (main.app bcrypt_hash bcrypt_verify jwt_encode
                             cloudinary_upload r w)).

(** ** Vocabulary of the further properties *)

(** The filter of [crud.get_user_contacts]. *)
Definition owned_by (user_id : Z) (c : Contact.t) : bool :=
  sql_eq_int (Contact.owner_id c) user_id.

(** [current_user: models.User = Depends(get_current_user)]: the framework
    resolves the dependency before it calls the handler, and an exception
    raised by the dependency ends the request. *)
Definition authenticated {A}
           (jwt_decode : string -> string -> list string -> Z -> option pydict)
           (utcnow : Z) (token : string) (handler : User.t -> M A) : M A :=
  bind (security.get_current_user jwt_decode utcnow token) handler.

(** What passlib promises: a hash verifies against the secret it was
    computed from, whatever the salt. *)
Definition bcrypt_sound (bcrypt_hash : string -> string -> string)
           (bcrypt_verify : string -> string -> bool) : Prop :=
  forall salt password, bcrypt_verify password (bcrypt_hash salt password) = true.

(** The verifier going with [ref_bcrypt_hash]: the scheme prefix, then
    anything, then the secret. *)
Fixpoint is_suffix (p h : string) : bool :=
  if String.eqb h p then true
  else match h with
       | EmptyString => false
       | String _ h' => is_suffix p h'
       end.

Definition ref_bcrypt_verify (password hashed : string) : bool :=
  String.prefix "$2b$12$" hashed && is_suffix password hashed.

(** The row [crud.create_contact] stores. *)
Definition new_contact (db : Database) (contact : ContactCreate) (user_id : Z)
  : Contact.t :=
  Contact.mk (contacts_id_seq db + 1)
             (Some (cc_first_name contact)) (Some (cc_last_name contact))
             (Some (cc_email contact)) (Some (cc_phone_number contact))
             (Some (cc_birthday contact)) (cc_additional_info contact)
             (Some user_id).

(** The requests that concern contacts. *)
Definition contact_request (r : main.request) : bool :=
  match r with
  | main.PostContacts _ _ | main.GetContacts _ _ _ | main.GetContact _ _
  | main.PutContact _ _ _ | main.DeleteContact _ _
  | main.GetUpcomingBirthdays _ _ => true
  | _ => false
  end.

Definition is_registration (r : main.request) : bool :=
  match r with main.PostUsers _ _ _ => true | _ => false end.

Definition sample_new_contact : ContactCreate :=
  mkContactCreate "Cy" "Doe" "cy@example.com" "557" 739002 (Some "met at work").

(** A request as the server receives it: the routes that declare
    [Depends(get_current_user)] carry the bearer token, and the clock the
    dependency reads, in place of a resolved user. *)
Inductive call :=
| CallAvatar (utcnow : Z) (token : string) (user_id : Z) (file : string)
| CallVerify (verification_code : string)
| CallRegister (salt : string) (rng : nat -> nat) (user : UserCreate)
| CallLogin (utcnow : Z) (username password : string)
| CallCreateContact (utcnow : Z) (token : string) (contact : ContactCreate)
| CallReadContacts (utcnow : Z) (token : string) (skip limit : Z)
| CallReadContact (utcnow : Z) (token : string) (contact_id : Z)
| CallUpdateContact (utcnow : Z) (token : string) (contact_id : Z)
                    (contact : ContactUpdate)
| CallDeleteContact (utcnow : Z) (token : string) (contact_id : Z)
| CallUpcomingBirthdays (utcnow : Z) (token : string) (today : Z).

(** The routes of [main.py] whose signature has
    [current_user = Depends(get_current_user)]. *)
Definition needs_user (c : call) : bool :=
  match c with
  | CallVerify _ | CallRegister _ _ _ | CallLogin _ _ _ => false
  | _ => true
  end.

(** The routes that only read. *)
Definition reads_only (c : call) : bool :=
  match c with
  | CallLogin _ _ _ | CallReadContacts _ _ _ _ | CallReadContact _ _ _
  | CallUpcomingBirthdays _ _ _ => true
  | _ => false
  end.

(** Handling a request: the dependency first, where the route has one, then
    the handler. *)
Definition serve
           (bcrypt_hash : string -> string -> string)
           (bcrypt_verify : string -> string -> bool)
           (jwt_encode : pydict -> string -> string -> string)
           (jwt_decode : string -> string -> list string -> Z -> option pydict)
           (cloudinary_upload : string -> string)
           (c : call) : M main.response :=
  let app := main.app bcrypt_hash bcrypt_verify jwt_encode cloudinary_upload in
  let user := authenticated jwt_decode in
  match c with
  | CallAvatar utcnow token user_id file =>
      user utcnow token (fun cu => app (main.PostAvatar user_id file cu))
  | CallVerify code => app (main.GetVerify code)
  | CallRegister salt rng u => app (main.PostUsers salt rng u)
  | CallLogin utcnow username password =>
      app (main.PostToken utcnow username password)
  | CallCreateContact utcnow token contact =>
      user utcnow token (fun cu => app (main.PostContacts contact cu))
  | CallReadContacts utcnow token skip limit =>
      user utcnow token (fun cu => app (main.GetContacts skip limit cu))
  | CallReadContact utcnow token contact_id =>
      user utcnow token (fun cu => app (main.GetContact contact_id cu))
  | CallUpdateContact utcnow token contact_id contact =>
      user utcnow token (fun cu => app (main.PutContact contact_id contact cu))
  | CallDeleteContact utcnow token contact_id =>
      user utcnow token (fun cu => app (main.DeleteContact contact_id cu))
  | CallUpcomingBirthdays utcnow token today =>
      user utcnow token (fun cu => app (main.GetUpcomingBirthdays today cu))
  end.

(** From world [w] to [w'] the statements sent are those of the dependency,
    [qa], followed by those of the handler, [qh]: [qa] is empty or, on a
    route with a current user, the one SELECT on users; [qh] has at most
    three statements and at most one mutation, and on a route that only
    reads at most one statement, no mutation, with the database
    unchanged. *)
Definition thin_request (auth ro : bool) (w w' : World) : Prop :=
  exists qa qh,
    w_log w' = w_log w ++ qa ++ qh
    /\ (qa = [] \/ (auth = true /\ qa = [SELECT Users]))
    /\ (List.length qh <= 3)%nat
    /\ (List.length (filter is_mutation qh) <= 1)%nat
    /\ (List.length (qa ++ qh) <= 4)%nat
    /\ (ro = true ->
        (List.length qh <= 1)%nat
        /\ filter is_mutation (qa ++ qh) = []
        /\ w_db w' = w_db w).

(** * Properties *)

(** ** Reasoning about the session monad *)

Ltac unfold_session :=
  unfold query_user_first, query_contact_first, query_contact_all,
    query_contact_page, offset_limit, refresh_user, refresh_contact,
    delete_commit_contact, send_verification_email,
    timedelta_days, date_add,
    bind, ret, raise, emit, get_db, put_db, deliver in *.

Lemma sql_eq_int_true (col : option Z) (v : Z) :
  sql_eq_int col v = true <-> col = Some v.
Proof.
  destruct col as [z|]; simpl.
  - rewrite Z.eqb_eq. split; [intros ->; reflexivity | intros [= ->]; reflexivity].
  - split; discriminate.
Qed.

Lemma sql_eq_str_true (col : option string) (v : string) :
  sql_eq_str col v = true <-> col = Some v.
Proof.
  destruct col as [s|]; simpl.
  - rewrite String.eqb_eq. split; [intros ->; reflexivity | intros [= ->]; reflexivity].
  - split; discriminate.
Qed.

Lemma sql_range_true (col : option Z) (lo hi : Z) :
  sql_ge col lo && sql_le col hi = true <->
  exists b, col = Some b /\ lo <= b <= hi.
Proof.
  destruct col as [z|]; simpl.
  - rewrite andb_true_iff, !Z.leb_le. split.
    + intros [H1 H2]. exists z. auto.
    + intros [b [[= ->] H]]. lia.
  - split; [discriminate | intros [b [H _]]; discriminate].
Qed.

(** ** Upcoming birthdays *)

Lemma in_window_upcoming today days user_id c :
  in_window today days user_id c = true <-> upcoming today days user_id c.
Proof.
  unfold in_window, upcoming.
  rewrite <- andb_assoc, andb_true_iff, sql_eq_int_true, sql_range_true.
  reflexivity.
Qed.

Lemma get_upcoming_birthdays_run today user_id days w :
  Z.abs days <= 999999999 ->
  MINORDINAL <= today + days <= MAXORDINAL ->
  crud.get_upcoming_birthdays today user_id days w =
  (Ret (filter (in_window today days user_id) (contacts (w_db w))),
   mkWorld (w_db w) (w_outbox w) (w_log w ++ [SELECT Contacts])).
Proof.
  intros Hd [Hlo Hhi]. unfold crud.get_upcoming_birthdays. unfold_session.
  apply Z.leb_le in Hd, Hlo, Hhi. rewrite Hd. simpl. rewrite Hlo, Hhi. simpl.
  reflexivity.
Qed.

(** C1. For every user and every stored table of contacts, the
    upcoming-birthdays endpoint (days = 7) and [crud.get_upcoming_birthdays]
    (any [days] that keeps the end date a valid date) return exactly the
    stored contacts owned by the user whose birthday [b] satisfies
    [today <= b <= today + days], in storage order, and leave the database
    as it was. *)
Theorem C1_upcoming_birthdays_exact
  (today days : Z) (cu : User.t) (w : World)
  (Hdays : Z.abs days <= 999999999)
  (Hend : MINORDINAL <= today + days <= MAXORDINAL)
  (Hend7 : MINORDINAL <= today + 7 <= MAXORDINAL) :
  (exists l w',
      crud.get_upcoming_birthdays today (User.id cu) days w = (Ret l, w')
      /\ w_db w' = w_db w
      /\ l = filter (in_window today days (User.id cu)) (contacts (w_db w))
      /\ forall c, In c l <->
                   In c (contacts (w_db w)) /\ upcoming today days (User.id cu) c)
  /\
  (exists l w',
      main.get_upcoming_birthdays today cu w = (Ret l, w')
      /\ w_db w' = w_db w
      /\ l = filter (in_window today 7 (User.id cu)) (contacts (w_db w))
      /\ forall c, In c l <->
                   In c (contacts (w_db w)) /\ upcoming today 7 (User.id cu) c).
Proof.
  split.
  - eexists. eexists. split;
      [apply get_upcoming_birthdays_run; assumption|].
    split; [reflexivity|]. split; [reflexivity|].
    intro c. rewrite filter_In, in_window_upcoming. reflexivity.
  - eexists. eexists. split;
      [unfold main.get_upcoming_birthdays;
       apply get_upcoming_birthdays_run; [simpl; lia | assumption]|].
    split; [reflexivity|]. split; [reflexivity|].
    intro c. rewrite filter_In, in_window_upcoming. reflexivity.
Qed.

Lemma C1_upcoming_birthdays_exact_witness :
  exists l w',
    main.get_upcoming_birthdays 739000 sample_user (world_of sample_db)
    = (Ret l, w')
    /\ l = [sample_contact 1 "b1@example.com" 739000 1;
            sample_contact 2 "b2@example.com" 739005 1].
Proof.
  destruct (C1_upcoming_birthdays_exact 739000 7 sample_user (world_of sample_db))
    as [_ (l & w' & Hrun & _ & Hl & _)].
  - simpl. lia.
  - unfold MINORDINAL, MAXORDINAL. lia.
  - unfold MINORDINAL, MAXORDINAL. lia.
  - exists l, w'. split; [exact Hrun | rewrite Hl; reflexivity].
Defined.

(** ** Keys and frames *)

Lemma mem_int_In (z : Z) (l : list Z) : mem_int z l = true <-> In z l.
Proof.
  induction l as [|x l IH]; simpl.
  - split; [discriminate | tauto].
  - rewrite orb_true_iff, Z.eqb_eq, IH. reflexivity.
Qed.

Lemma mem_str_In (s : string) (l : list string) : mem_str s l = true <-> In s l.
Proof.
  induction l as [|x l IH]; simpl.
  - split; [discriminate | tauto].
  - rewrite orb_true_iff, String.eqb_eq, IH. reflexivity.
Qed.

Lemma nodup_int_NoDup (l : list Z) : nodup_int l = true <-> NoDup l.
Proof.
  induction l as [|x l IH]; simpl.
  - split; [constructor | reflexivity].
  - rewrite andb_true_iff, negb_true_iff, IH. split.
    + intros [Hx Hl]. constructor; [|assumption].
      rewrite <- mem_int_In. rewrite Hx. discriminate.
    + intros H. inversion H as [|? ? Hx Hl]; subst. split; [|assumption].
      destruct (mem_int x l) eqn:E; [|reflexivity].
      apply mem_int_In in E. contradiction.
Qed.

Lemma nodup_str_NoDup (l : list string) : nodup_str l = true <-> NoDup l.
Proof.
  induction l as [|x l IH]; simpl.
  - split; [constructor | reflexivity].
  - rewrite andb_true_iff, negb_true_iff, IH. split.
    + intros [Hx Hl]. constructor; [|assumption].
      rewrite <- mem_str_In. rewrite Hx. discriminate.
    + intros H. inversion H as [|? ? Hx Hl]; subst. split; [|assumption].
      destruct (mem_str x l) eqn:E; [|reflexivity].
      apply mem_str_In in E. contradiction.
Qed.

(** Two rows of a table with the same primary key are the same row. *)
Lemma key_inj {A} (key : A -> Z) (l : list A) (a b : A) :
  NoDup (map key l) -> In a l -> In b l -> key a = key b -> a = b.
Proof.
  induction l as [|x l IH]; simpl; [tauto|].
  intros H Ha Hb E. inversion H as [|? ? Hx Hl]; subst.
  destruct Ha as [->|Ha], Hb as [->|Hb]; auto.
  - exfalso. apply Hx. rewrite E. apply in_map. assumption.
  - exfalso. apply Hx. rewrite <- E. apply in_map. assumption.
Qed.

(** Rewriting rows that a filter rejects before and after leaves the
    filtered table as it was. *)
Lemma filter_map_frame {A} (q : A -> bool) (g : A -> A) (l : list A) :
  (forall r, In r l -> g r = r \/ (q r = false /\ q (g r) = false)) ->
  filter q (map g l) = filter q l.
Proof.
  induction l as [|x l IH]; simpl; [reflexivity|].
  intros H. rewrite IH by (intros r Hr; apply H; right; assumption).
  destruct (H x (or_introl eq_refl)) as [->|[E1 E2]].
  - reflexivity.
  - rewrite E1, E2. reflexivity.
Qed.

(** Dropping rows that a filter rejects leaves the filtered table as it
    was. *)
Lemma filter_filter_frame {A} (q k : A -> bool) (l : list A) :
  (forall r, In r l -> k r = false -> q r = false) ->
  filter q (filter k l) = filter q l.
Proof.
  induction l as [|x l IH]; simpl; [reflexivity|].
  intros H. specialize (IH (fun r Hr => H r (or_intror Hr))).
  destruct (k x) eqn:E; simpl.
  - rewrite IH. reflexivity.
  - rewrite (H x (or_introl eq_refl) E). assumption.
Qed.

(** ** What each ORM call does to the world *)

Ltac case_find :=
  match goal with
  | |- context [match find ?f ?l with _ => _ end] =>
      let E := fresh "Efind" in destruct (find f l) eqn:E
  end.

Lemma query_user_first_run p w :
  query_user_first p w = (Ret (find p (users (w_db w))), logged w [SELECT Users]).
Proof. reflexivity. Qed.

Lemma get_contact_run contact_id user_id w :
  crud.get_contact contact_id user_id w =
  (Ret (find (owns contact_id user_id) (contacts (w_db w))),
   logged w [SELECT Contacts]).
Proof. reflexivity. Qed.

Lemma refresh_user_run pk w :
  refresh_user pk w =
  (match find (fun u => User.id u =? pk) (users (w_db w)) with
   | Some u => Ret u
   | None => Raise InvalidRequestError
   end, logged w [SELECT Users]).
Proof.
  unfold refresh_user. unfold_session. simpl. case_find; reflexivity.
Qed.

Lemma refresh_contact_run pk w :
  refresh_contact pk w =
  (match find (fun c => Contact.id c =? pk) (contacts (w_db w)) with
   | Some c => Ret c
   | None => Raise InvalidRequestError
   end, logged w [SELECT Contacts]).
Proof.
  unfold refresh_contact. unfold_session. simpl. case_find; reflexivity.
Qed.

Lemma commit_user_run u set w :
  commit_user u set w =
  if user_eq_dec (set u) u then (Ret tt, w)
  else if opt_mem_str (User.verification_code (set u))
            (non_null (map User.verification_code
               (filter (fun r => negb (User.id r =? User.id u))
                       (users (w_db w)))))
       then (Raise IntegrityError, logged w [UPDATE Users])
       else (Ret tt,
             mkWorld (with_users (w_db w)
                        (rewrite_users (User.id u) set (users (w_db w))))
                     (w_outbox w) (w_log w ++ [UPDATE Users])).
Proof.
  unfold commit_user. destruct (user_eq_dec (set u) u); [reflexivity|].
  unfold_session. simpl. destruct (opt_mem_str _ _); reflexivity.
Qed.

Lemma commit_contact_run c set w :
  commit_contact c set w =
  if contact_eq_dec (set c) c then (Ret tt, w)
  else if opt_mem_str (Contact.email (set c))
            (non_null (map Contact.email
               (filter (fun r => negb (Contact.id r =? Contact.id c))
                       (contacts (w_db w)))))
       then (Raise IntegrityError, logged w [UPDATE Contacts])
       else (Ret tt,
             mkWorld (with_contacts (w_db w)
                        (rewrite_contacts (Contact.id c) set (contacts (w_db w))))
                     (w_outbox w) (w_log w ++ [UPDATE Contacts])).
Proof.
  unfold commit_contact. destruct (contact_eq_dec (set c) c); [reflexivity|].
  unfold_session. simpl. destruct (opt_mem_str _ _); reflexivity.
Qed.

Lemma delete_commit_contact_run c w :
  delete_commit_contact c w =
  (Ret tt,
   mkWorld (with_contacts (w_db w)
              (filter (fun r => negb (Contact.id r =? Contact.id c))
                      (contacts (w_db w))))
           (w_outbox w) (w_log w ++ [DELETE Contacts])).
Proof. reflexivity. Qed.

Lemma owns_true contact_id user_id c :
  owns contact_id user_id c = true <->
  Contact.id c = contact_id /\ Contact.owner_id c = Some user_id.
Proof.
  unfold owns. rewrite andb_true_iff, Z.eqb_eq, sql_eq_int_true. reflexivity.
Qed.

Lemma foreign_false user_id c :
  Contact.owner_id c = Some user_id -> foreign user_id c = false.
Proof.
  intros H. unfold foreign. apply negb_false_iff. apply sql_eq_int_true.
  assumption.
Qed.

(** ** Contacts are per user *)

Lemma update_contact_spec contact_id upd user_id w r w' :
  NoDup (contact_ids (w_db w)) ->
  crud.update_contact contact_id upd user_id w = (r, w') ->
  users (w_db w') = users (w_db w)
  /\ filter (foreign user_id) (contacts (w_db w'))
     = filter (foreign user_id) (contacts (w_db w))
  /\ forall c', r = Ret (Some c') ->
                Contact.owner_id c' = Some user_id
                /\ Contact.id c' = contact_id
                /\ In c' (contacts (w_db w')).
Proof.
  intros Hpk. unfold crud.update_contact, bind. rewrite get_contact_run.
  destruct (find _ _) as [c|] eqn:Hfind.
  - apply find_some in Hfind. destruct Hfind as [Hin Howns].
    apply owns_true in Howns. destruct Howns as [Hid Hown].
    rewrite commit_contact_run.
    destruct (contact_eq_dec _ _) as [E|E];
      [|destruct (opt_mem_str _ _)];
      try rewrite refresh_contact_run; unfold ret, raise; simpl.
    + case_find; intros [= <- <-]; simpl;
        (split; [reflexivity|split; [reflexivity|]]); intros c' [= <-].
      apply find_some in Efind. destruct Efind as [Hin' Hid'].
      apply Z.eqb_eq in Hid'.
      assert (t = c) by (eapply key_inj; eauto). subst t. auto.
    + intros [= <- <-]; simpl.
      split; [reflexivity|split; [reflexivity|]]. intros c' [=].
    + assert (Hframe :
        filter (foreign user_id)
          (rewrite_contacts (Contact.id c) (crud.setattrs upd) (contacts (w_db w)))
        = filter (foreign user_id) (contacts (w_db w))).
      { apply filter_map_frame. intros r0 Hr0.
        destruct (Contact.id r0 =? Contact.id c) eqn:Ek; [|left; reflexivity].
        apply Z.eqb_eq in Ek.
        assert (r0 = c) by (eapply key_inj; eauto). subst r0.
        right. split; apply foreign_false; assumption. }
      case_find; intros [= <- <-]; simpl;
        (split; [reflexivity|split; [exact Hframe|]]); intros c' [= <-].
      apply find_some in Efind. destruct Efind as [Hin' Hid'].
      apply Z.eqb_eq in Hid'. split; [|split; [congruence|assumption]].
      unfold rewrite_contacts in Hin'. apply in_map_iff in Hin'.
      destruct Hin' as [r0 [Hr0 Hin0]].
      destruct (Contact.id r0 =? Contact.id c) eqn:Ek.
      * apply Z.eqb_eq in Ek.
        assert (r0 = c) by (eapply key_inj; eauto). subst r0 t. assumption.
      * subst t. apply Z.eqb_neq in Ek. contradiction.
  - unfold ret. intros [= <- <-]. simpl.
    split; [reflexivity|split; [reflexivity|]]. intros c' [=].
Qed.

Lemma delete_contact_spec contact_id user_id w r w' :
  NoDup (contact_ids (w_db w)) ->
  crud.delete_contact contact_id user_id w = (r, w') ->
  users (w_db w') = users (w_db w)
  /\ filter (foreign user_id) (contacts (w_db w'))
     = filter (foreign user_id) (contacts (w_db w))
  /\ forall c', r = Ret (Some c') ->
                Contact.owner_id c' = Some user_id
                /\ Contact.id c' = contact_id
                /\ In c' (contacts (w_db w))
                /\ ~ In c' (contacts (w_db w')).
Proof.
  intros Hpk. unfold crud.delete_contact, bind. rewrite get_contact_run.
  destruct (find _ _) as [c|] eqn:Hfind.
  - apply find_some in Hfind. destruct Hfind as [Hin Howns].
    apply owns_true in Howns. destruct Howns as [Hid Hown].
    rewrite delete_commit_contact_run. unfold ret.
    intros [= <- <-]. simpl. split; [reflexivity|]. split.
    + apply filter_filter_frame. intros r0 Hr0 Ek.
      apply negb_false_iff, Z.eqb_eq in Ek.
      assert (r0 = c) by (eapply key_inj; eauto). subst r0.
      apply foreign_false. assumption.
    + intros c' [= <-]. repeat split; try assumption.
      rewrite filter_In. intros [_ Hne].
      rewrite Z.eqb_refl in Hne. discriminate.
  - unfold ret. intros [= <- <-]. simpl.
    split; [reflexivity|split; [reflexivity|]]. intros c' [=].
Qed.

Lemma in_firstn {A} (n : nat) (l : list A) (x : A) : In x (firstn n l) -> In x l.
Proof.
  intros H. rewrite <- (firstn_skipn n l). apply in_or_app. left. assumption.
Qed.

Lemma in_skipn {A} (n : nat) (l : list A) (x : A) : In x (skipn n l) -> In x l.
Proof.
  intros H. rewrite <- (firstn_skipn n l). apply in_or_app. right. assumption.
Qed.

Lemma get_user_contacts_spec user_id skip limit w r w' :
  crud.get_user_contacts user_id skip limit w = (r, w') ->
  w_db w' = w_db w
  /\ forall l, r = Ret l ->
               forall c, In c l ->
                         In c (contacts (w_db w))
                         /\ Contact.owner_id c = Some user_id.
Proof.
  unfold crud.get_user_contacts, query_contact_page. unfold_session. simpl.
  destruct ((skip <? 0) || (limit <? 0)); intros [= <- <-]; simpl;
    (split; [reflexivity|]); intros l [= <-].
  intros c Hc. apply in_firstn, in_skipn in Hc.
  apply filter_In in Hc. destruct Hc as [Hin Hown].
  apply sql_eq_int_true in Hown. auto.
Qed.

(** C2. Contact records are per user.  In a database whose [contacts.id]
    is a primary key, for every user and contact id: [crud.get_contact]
    returns only a stored contact with that id whose [owner_id] is the
    user's id; [crud.get_user_contacts] returns only stored contacts with
    that [owner_id]; neither changes the database; [crud.update_contact]
    and [crud.delete_contact] return only a contact owned by the user, leave
    the users table alone and leave the contacts of every other owner
    exactly as they were. *)
Theorem C2_contacts_are_per_user
  (w : World) (cu : User.t) (contact_id skip limit : Z) (upd : ContactUpdate)
  (Hpk : pk_contacts (w_db w) = true) :
  (forall r w',
      crud.get_contact contact_id (User.id cu) w = (r, w') ->
      w_db w' = w_db w
      /\ forall c, r = Ret (Some c) ->
                   In c (contacts (w_db w))
                   /\ Contact.id c = contact_id
                   /\ Contact.owner_id c = Some (User.id cu))
  /\
  (forall r w',
      crud.get_user_contacts (User.id cu) skip limit w = (r, w') ->
      w_db w' = w_db w
      /\ forall l, r = Ret l ->
                   forall c, In c l ->
                             In c (contacts (w_db w))
                             /\ Contact.owner_id c = Some (User.id cu))
  /\
  (forall r w',
      crud.update_contact contact_id upd (User.id cu) w = (r, w') ->
      users (w_db w') = users (w_db w)
      /\ filter (foreign (User.id cu)) (contacts (w_db w'))
         = filter (foreign (User.id cu)) (contacts (w_db w))
      /\ forall c, r = Ret (Some c) ->
                   Contact.owner_id c = Some (User.id cu)
                   /\ Contact.id c = contact_id
                   /\ In c (contacts (w_db w')))
  /\
  (forall r w',
      crud.delete_contact contact_id (User.id cu) w = (r, w') ->
      users (w_db w') = users (w_db w)
      /\ filter (foreign (User.id cu)) (contacts (w_db w'))
         = filter (foreign (User.id cu)) (contacts (w_db w))
      /\ forall c, r = Ret (Some c) ->
                   Contact.owner_id c = Some (User.id cu)
                   /\ Contact.id c = contact_id
                   /\ In c (contacts (w_db w))
                   /\ ~ In c (contacts (w_db w'))).
Proof.
  apply nodup_int_NoDup in Hpk. split; [|split; [|split]].
  - intros r w' Hrun. rewrite get_contact_run in Hrun.
    injection Hrun as <- <-. split; [reflexivity|].
    intros c [= Hfind]. apply find_some in Hfind. destruct Hfind as [Hin Ho].
    apply owns_true in Ho. tauto.
  - intros r w' Hrun. eapply get_user_contacts_spec; eassumption.
  - intros r w' Hrun. eapply update_contact_spec; eassumption.
  - intros r w' Hrun. eapply delete_contact_spec; eassumption.
Qed.

Lemma C2_contacts_are_per_user_witness :
  pk_contacts sample_db = true
  /\ forall r w',
      crud.update_contact 3 sample_update (User.id sample_user)
                          (world_of sample_db) = (r, w') ->
      filter (foreign (User.id sample_user)) (contacts (w_db w'))
      = [sample_contact 3 "b3@example.com" 739003 2].
Proof.
  split; [reflexivity|]. intros r w' H.
  destruct (C2_contacts_are_per_user (world_of sample_db) sample_user 3 0 100
              sample_update eq_refl) as (_ & _ & Hu & _).
  destruct (Hu r w' H) as (_ & Hframe & _). rewrite Hframe. reflexivity.
Defined.

(** ** Email verification *)

Lemma find_split {A} (p : A -> bool) (l : list A) (a : A) :
  find p l = Some a ->
  exists l1 l2, l = l1 ++ a :: l2 /\ p a = true
                /\ forall r, In r l1 -> p r = false.
Proof.
  induction l as [|x l IH]; simpl; [discriminate|].
  destruct (p x) eqn:E.
  - intros [= ->]. exists [], l. simpl. tauto.
  - intros H. destruct (IH H) as (l1 & l2 & -> & Hp & Hl1).
    exists (x :: l1), l2. simpl. repeat split; auto.
    intros r [<-|Hr]; auto.
Qed.

Lemma find_none_iff {A} (p : A -> bool) (l : list A) :
  find p l = None <-> forall r, In r l -> p r = false.
Proof.
  split; [apply find_none|].
  induction l as [|x l IH]; simpl; [reflexivity|].
  intros H. rewrite (H x (or_introl eq_refl)). apply IH.
  intros r Hr. apply H. right. assumption.
Qed.

Lemma rewrite_users_other pk set (l : list User.t) :
  (forall r, In r l -> User.id r <> pk) -> rewrite_users pk set l = l.
Proof.
  induction l as [|x l IH]; simpl; [reflexivity|].
  intros H. rewrite IH by (intros r Hr; apply H; right; assumption).
  destruct (User.id x =? pk) eqn:E; [|reflexivity].
  apply Z.eqb_eq in E. exfalso. apply (H x); auto.
Qed.

Lemma rewrite_users_split set (l1 l2 : list User.t) (u : User.t) :
  NoDup (map User.id (l1 ++ u :: l2)) ->
  rewrite_users (User.id u) set (l1 ++ u :: l2) = l1 ++ set u :: l2.
Proof.
  intros H. unfold rewrite_users. rewrite map_app. simpl.
  rewrite Z.eqb_refl.
  rewrite map_app in H. simpl in H.
  pose proof (NoDup_remove_2 _ _ _ H) as Hnot.
  fold (rewrite_users (User.id u) set l1).
  fold (rewrite_users (User.id u) set l2).
  rewrite !rewrite_users_other; [reflexivity| |].
  - intros r Hr E. apply Hnot. apply in_or_app. right.
    rewrite <- E. apply in_map. assumption.
  - intros r Hr E. apply Hnot. apply in_or_app. left.
    rewrite <- E. apply in_map. assumption.
Qed.

Lemma mark_verified_changes (u : User.t) (code : string) :
  User.verification_code u = Some code -> main.mark_verified u <> u.
Proof.
  intros H E. apply (f_equal User.verification_code) in E. simpl in E.
  congruence.
Qed.

Lemma verify_email_run code w :
  main.verify_email code w =
  match find (has_code code) (users (w_db w)) with
  | None => (Raise (HTTPException 404 "User not found"), logged w [SELECT Users])
  | Some u =>
      (Ret "Email successfully verified",
       mkWorld (with_users (w_db w)
                  (rewrite_users (User.id u) main.mark_verified (users (w_db w))))
               (w_outbox w) (w_log w ++ [SELECT Users; UPDATE Users]))
  end.
Proof.
  unfold main.verify_email, bind. rewrite query_user_first_run.
  fold (has_code code).
  destruct (find (has_code code) (users (w_db w))) as [u|] eqn:Hfind;
    [|reflexivity].
  apply find_some in Hfind. destruct Hfind as [_ Hc].
  apply sql_eq_str_true in Hc.
  rewrite commit_user_run.
  destruct (user_eq_dec _ _) as [E|E];
    [exfalso; eapply mark_verified_changes; eassumption|].
  simpl. unfold ret. rewrite <- app_assoc. reflexivity.
Qed.

(** C3. Email verification.  If no stored user carries the code, the
    endpoint raises HTTP 404 and the database is unchanged.  If some user
    carries it, then (the users table having [id] as primary key) the
    endpoint returns its success message, the first such user gets
    [is_verified = True] and [verification_code = None] with its other
    columns kept, and every other user and every contact is unchanged. *)
Theorem C3_verify_email
  (code : string) (w : World) (Hpk : pk_users (w_db w) = true) :
  ((forall u, In u (users (w_db w)) -> User.verification_code u <> Some code) ->
   exists w',
     main.verify_email code w = (Raise (HTTPException 404 "User not found"), w')
     /\ w_db w' = w_db w)
  /\
  ((exists u, In u (users (w_db w)) /\ User.verification_code u = Some code) ->
   exists l1 u l2 w',
     users (w_db w) = l1 ++ u :: l2
     /\ User.verification_code u = Some code
     /\ main.verify_email code w = (Ret "Email successfully verified", w')
     /\ users (w_db w')
        = l1 ++ User.mk (User.id u) (User.email u) (User.hashed_password u)
                        (User.is_active u) (Some true) None :: l2
     /\ contacts (w_db w') = contacts (w_db w)).
Proof.
  apply nodup_int_NoDup in Hpk. rewrite verify_email_run. split.
  - intros Hnone.
    assert (Hf : find (has_code code) (users (w_db w)) = None).
    { apply find_none_iff. intros r Hr. unfold has_code.
      destruct (sql_eq_str (User.verification_code r) code) eqn:E;
        [|reflexivity].
      apply sql_eq_str_true in E. exfalso. eapply Hnone; eassumption. }
    rewrite Hf. eexists. split; reflexivity.
  - intros (u0 & Hin0 & Hc0).
    destruct (find (has_code code) (users (w_db w))) as [u|] eqn:Hfind.
    + destruct (find_split _ _ _ Hfind) as (l1 & l2 & Hl & Hc & _).
      apply sql_eq_str_true in Hc.
      exists l1, u, l2. eexists. repeat split; try eassumption.
      simpl. unfold user_ids in Hpk. rewrite Hl in *.
      apply rewrite_users_split. assumption.
    + exfalso. rewrite find_none_iff in Hfind.
      specialize (Hfind u0 Hin0). unfold has_code in Hfind.
      apply sql_eq_str_true in Hc0. congruence.
Qed.

Lemma C3_verify_email_witness :
  pk_users sample_db = true
  /\ exists w',
      main.verify_email "ZZZZZZ" (world_of sample_db)
      = (Raise (HTTPException 404 "User not found"), w')
      /\ w_db w' = sample_db.
Proof.
  split; [reflexivity|].
  destruct (C3_verify_email "ZZZZZZ" (world_of sample_db) eq_refl) as [H _].
  apply H. simpl. intros u [<-|[<-|[]]]; simpl; discriminate.
Defined.

Lemma non_null_in {A B} (f : A -> option B) (l : list A) (a : A) (v : B) :
  In a l -> f a = Some v -> In v (non_null (map f l)).
Proof.
  induction l as [|x l IH]; simpl; [tauto|].
  intros [->|Ha] E.
  - rewrite E. left. reflexivity.
  - destruct (f x); [right|]; auto.
Qed.

(** Two rows carrying the same non-NULL value in a unique column are the
    same row. *)
Lemma unique_inj {A B} (f : A -> option B) (l : list A) (a b : A) (v : B) :
  NoDup (non_null (map f l)) ->
  In a l -> In b l -> f a = Some v -> f b = Some v -> a = b.
Proof.
  induction l as [|x l IH]; simpl; [tauto|].
  intros H Ha Hb Ea Eb. destruct (f x) as [s|] eqn:Ex.
  - inversion H as [|? ? Hs Hl]; subst.
    destruct Ha as [->|Ha], Hb as [->|Hb]; auto.
    + exfalso. apply Hs. assert (s = v) by congruence. subst s.
      eapply non_null_in; eassumption.
    + exfalso. apply Hs. assert (s = v) by congruence. subst s.
      eapply non_null_in; eassumption.
  - destruct Ha as [->|Ha]; [congruence|].
    destruct Hb as [->|Hb]; [congruence|]. auto.
Qed.

(** C10. Verification codes are single-use.  In a database where
    [users.verification_code] is unique, after a successful call of the
    verify endpoint with a code, no stored user carries that code any more:
    the rows of the matched user have [verification_code = None], and a
    second call with the same code raises HTTP 404 and leaves the database
    as it is.  In any database, a user whose [verification_code] is None is
    matched by no code. *)
Theorem C10_verification_code_single_use
  (code msg : string) (w w1 : World)
  (Huniq : unique_code (w_db w) = true)
  (Hfirst : main.verify_email code w = (Ret msg, w1)) :
  main.verify_email code w1
  = (Raise (HTTPException 404 "User not found"), logged w1 [SELECT Users])
  /\ (forall r, In r (users (w_db w1)) -> User.verification_code r <> Some code)
  /\ (exists u,
         find (has_code code) (users (w_db w)) = Some u
         /\ forall r, In r (users (w_db w1)) -> User.id r = User.id u ->
                      User.verification_code r = None)
  /\ (forall (w0 : World) (c : string) (u : User.t),
         User.verification_code u = None ->
         find (has_code c) (users (w_db w0)) <> Some u).
Proof.
  apply nodup_str_NoDup in Huniq. unfold user_codes in Huniq.
  rewrite verify_email_run in Hfirst.
  destruct (find (has_code code) (users (w_db w))) as [u|] eqn:Hfind;
    [|discriminate].
  injection Hfirst as _ <-. simpl.
  apply find_some in Hfind. destruct Hfind as [Hin Hc].
  apply sql_eq_str_true in Hc.
  assert (Hgone : forall r,
             In r (rewrite_users (User.id u) main.mark_verified (users (w_db w))) ->
             User.verification_code r <> Some code).
  { intros r Hr. unfold rewrite_users in Hr. apply in_map_iff in Hr.
    destruct Hr as (r0 & <- & Hr0).
    destruct (User.id r0 =? User.id u) eqn:E; [simpl; discriminate|].
    intros Hc0. apply Z.eqb_neq in E. apply E.
    f_equal. eapply unique_inj; eassumption. }
  split; [|split; [exact Hgone|split]].
  - rewrite verify_email_run. simpl.
    assert (Hf : find (has_code code)
                   (rewrite_users (User.id u) main.mark_verified (users (w_db w)))
                 = None).
    { apply find_none_iff. intros r Hr. unfold has_code.
      destruct (sql_eq_str (User.verification_code r) code) eqn:E;
        [|reflexivity].
      apply sql_eq_str_true in E. exfalso. eapply Hgone; eassumption. }
    rewrite Hf. reflexivity.
  - exists u. split; [reflexivity|].
    intros r Hr Hid. unfold rewrite_users in Hr. apply in_map_iff in Hr.
    destruct Hr as (r0 & <- & Hr0).
    destruct (User.id r0 =? User.id u) eqn:E; [reflexivity|].
    apply Z.eqb_neq in E. contradiction.
  - intros w0 c u0 Hnone Hf. apply find_some in Hf. destruct Hf as [_ Hc0].
    apply sql_eq_str_true in Hc0. congruence.
Qed.

Lemma C10_verification_code_single_use_witness :
  unique_code sample_db = true
  /\ exists w1,
      main.verify_email "AB12CD" (world_of sample_db)
      = (Ret "Email successfully verified", w1)
      /\ main.verify_email "AB12CD" w1
         = (Raise (HTTPException 404 "User not found"), logged w1 [SELECT Users]).
Proof.
  split; [reflexivity|].
  eexists. split; [reflexivity|].
  apply (C10_verification_code_single_use
           "AB12CD" "Email successfully verified" (world_of sample_db));
    reflexivity.
Defined.

(** ** Missing contacts *)

(** C9. If no stored contact has the given id and the user as owner,
    [crud.update_contact] and [crud.delete_contact] return None without
    raising and leave the database unchanged, and so do the PUT and DELETE
    handlers built on them; the single-contact read handler raises
    HTTP 404. *)
Theorem C9_missing_contact
  (w : World) (cu : User.t) (contact_id : Z) (upd : ContactUpdate)
  (Hmissing : forall c, In c (contacts (w_db w)) ->
                        ~ (Contact.id c = contact_id
                           /\ Contact.owner_id c = Some (User.id cu))) :
  (exists w', crud.update_contact contact_id upd (User.id cu) w = (Ret None, w')
              /\ w_db w' = w_db w)
  /\ (exists w', crud.delete_contact contact_id (User.id cu) w = (Ret None, w')
                 /\ w_db w' = w_db w)
  /\ (exists w', main.update_contact contact_id upd cu w = (Ret None, w')
                 /\ w_db w' = w_db w)
  /\ (exists w', main.delete_contact contact_id cu w = (Ret None, w')
                 /\ w_db w' = w_db w)
  /\ (exists w', main.read_contact contact_id cu w
                 = (Raise (HTTPException 404 "Contact not found"), w')
                 /\ w_db w' = w_db w).
Proof.
  assert (Hf : find (owns contact_id (User.id cu)) (contacts (w_db w)) = None).
  { apply find_none_iff. intros c Hc.
    destruct (owns contact_id (User.id cu) c) eqn:E; [|reflexivity].
    apply owns_true in E. exfalso. eapply Hmissing; eassumption. }
  unfold main.update_contact, main.delete_contact, main.read_contact,
    crud.update_contact, crud.delete_contact, bind.
  rewrite get_contact_run, Hf.
  repeat split; eexists; split; reflexivity.
Qed.

Lemma C9_missing_contact_witness :
  exists w', crud.delete_contact 3 (User.id sample_user) (world_of sample_db)
             = (Ret None, w')
             /\ w_db w' = sample_db.
Proof.
  destruct (C9_missing_contact (world_of sample_db) sample_user 3 sample_update)
    as (_ & H & _).
  - simpl. intros c [<-|[<-|[<-|[<-|[]]]]]; simpl; intros [H1 H2]; discriminate.
  - exact H.
Defined.

(** ** Login and tokens *)

Section Tokens.
Variable bcrypt_verify : string -> string -> bool.
Variable jwt_encode : pydict -> string -> string -> string.
Variable jwt_decode : string -> string -> list string -> Z -> option pydict.

Lemma login_run utcnow email password w :
  main.login_for_access_token bcrypt_verify jwt_encode utcnow email password w =
  (match find (has_email email) (users (w_db w)) with
   | None => Raise unauthorized
   | Some u =>
       if security.verify_password bcrypt_verify password (User.hashed_password u)
       then Ret (mkToken
                   (jwt_encode [("sub", PStr email);
                                ("exp", PDatetime (utcnow + 30 * 60 * 1000000))]
                               security.SECRET_KEY security.ALGORITHM)
                   "bearer")
       else Raise unauthorized
   end, logged w [SELECT Users]).
Proof.
  unfold main.login_for_access_token, security.authenticate_user, bind.
  rewrite query_user_first_run. fold (has_email email).
  destruct (find (has_email email) (users (w_db w))) as [u|] eqn:Hfind;
    [|reflexivity].
  apply find_some in Hfind. destruct Hfind as [_ He].
  apply sql_eq_str_true in He.
  destruct (security.verify_password _ _ _); simpl; [|reflexivity].
  unfold ret. rewrite He. reflexivity.
Qed.

End Tokens.

(** ** JWT round trip *)

Section RoundTrip.
Variable jwt_encode : pydict -> string -> string -> string.
Variable jwt_decode : string -> string -> list string -> Z -> option pydict.
Hypothesis jose : jose_round_trip jwt_encode jwt_decode.

Lemma create_access_token_sub (issued : Z) (email : string)
      (expires_delta : option Z) :
  security.create_access_token jwt_encode issued [("sub", PStr email)]
                               expires_delta
  = jwt_encode [("sub", PStr email);
                ("exp", PDatetime (expiry_of issued expires_delta))]
               security.SECRET_KEY security.ALGORITHM.
Proof. reflexivity. Qed.

(** C6. JWT round trip.  A token made by [create_access_token] from
    [{"sub": email}], checked by [verify_token] before its expiry, yields
    the TokenData of that e-mail.  Conversely, for every token that
    [jwt.decode] rejects under [SECRET_KEY] and [ALGORITHM] (bad
    signature, wrong algorithm, malformed or expired), and for every
    token whose payload has no ["sub"], [verify_token] raises the
    exception it was given. *)
Theorem C6_jwt_round_trip :
  (forall (email : string) (issued checked : Z) (expires_delta : option Z)
          (exc : exn) (w : World),
      checked < expiry_of issued expires_delta ->
      security.verify_token jwt_decode checked
        (security.create_access_token jwt_encode issued
           [("sub", PStr email)] expires_delta)
        exc w
      = (Ret (mkTokenData (Some email)), w))
  /\
  (forall (token : string) (checked : Z) (exc : exn) (w : World),
      jwt_decode token security.SECRET_KEY [security.ALGORITHM] checked = None
      \/ (exists payload,
             jwt_decode token security.SECRET_KEY [security.ALGORITHM] checked
             = Some payload
             /\ dict_get payload "sub" = None) ->
      security.verify_token jwt_decode checked token exc w = (Raise exc, w)).
Proof.
  split.
  - intros email issued checked expires_delta exc w Hbefore.
    rewrite create_access_token_sub. unfold security.verify_token.
    rewrite jose; [reflexivity|].
    apply Z.div_le_mono; lia.
  - intros token checked exc w [Hbad|(payload & Hok & Hsub)];
      unfold security.verify_token.
    + rewrite Hbad. reflexivity.
    + rewrite Hok, Hsub. reflexivity.
Qed.
End RoundTrip.

(** *** The reference codec meets the round-trip contract *)

Lemma count_ones_ones (n : nat) (s : string) :
  count_ones (ones n ++ String "0" s)%string = (n, s).
Proof.
  induction n as [|n IH]; simpl; [reflexivity|]. rewrite IH. reflexivity.
Qed.

Lemma ref_codec_round_trip : jose_round_trip ref_jwt_encode ref_jwt_decode.
Proof.
  intros sub expire utcnow Hle. unfold ref_jwt_encode, ref_jwt_decode.
  cbn [dict_get]. change (String.eqb "sub" "sub") with true.
  change (String.eqb "sub" "exp") with false.
  change (String.eqb "exp" "exp") with true. cbv iota.
  rewrite count_ones_ones.
  destruct (expire / 1000000 <? 0) eqn:Es.
  - apply Z.ltb_lt in Es. change (Ascii.eqb "-" "-") with true. cbv iota.
    replace (- Z.of_nat (Z.abs_nat (expire / 1000000))) with (expire / 1000000)
      by (rewrite Zabs2Nat.id_abs; lia).
    apply Z.leb_le in Hle. rewrite Hle. reflexivity.
  - apply Z.ltb_ge in Es. change (Ascii.eqb "+" "-") with false. cbv iota.
    replace (Z.of_nat (Z.abs_nat (expire / 1000000))) with (expire / 1000000)
      by (rewrite Zabs2Nat.id_abs; lia).
    apply Z.leb_le in Hle. rewrite Hle. reflexivity.
Qed.

Lemma C6_jwt_round_trip_witness :
  security.verify_token ref_jwt_decode 1000000000
    (security.create_access_token ref_jwt_encode 0
       [("sub", PStr "user@example.com")] (Some (timedelta_minutes 30)))
    credentials_exception (world_of sample_db)
  = (Ret (mkTokenData (Some "user@example.com")), world_of sample_db).
Proof.
  apply (C6_jwt_round_trip ref_jwt_encode ref_jwt_decode ref_codec_round_trip).
  reflexivity.
Defined.

(** ** Registration *)

Lemma string_length_of_list (l : list ascii) :
  String.length (string_of_list_ascii l) = List.length l.
Proof. induction l as [|c l IH]; simpl; congruence. Qed.

Lemma random_choices_in (rng : nat -> nat) (population : list ascii) (k : nat) :
  population <> [] ->
  Forall (fun c => In c population) (random_choices rng population k).
Proof.
  intros Hne. unfold random_choices. apply Forall_forall.
  intros c Hc. apply in_map_iff in Hc. destruct Hc as (i & <- & _).
  apply nth_In. apply Nat.mod_upper_bound.
  destruct population; [contradiction|simpl; discriminate].
Qed.

Lemma code_generation_is_code (rng : nat -> nat) (n : nat) :
  is_code n (crud.code_generation rng n).
Proof.
  unfold is_code, crud.code_generation. split.
  - rewrite string_length_of_list. unfold random_choices.
    rewrite length_map, length_seq. reflexivity.
  - rewrite list_ascii_of_string_of_list_ascii.
    apply random_choices_in. discriminate.
Qed.

Lemma find_app_fresh {A} (p : A -> bool) (l : list A) (a : A) :
  (forall r, In r l -> p r = false) -> p a = true -> find p (l ++ [a]) = Some a.
Proof.
  induction l as [|x l IH]; simpl; intros Hl Ha.
  - rewrite Ha. reflexivity.
  - rewrite (Hl x (or_introl eq_refl)). apply IH; auto.
Qed.

Lemma find_email_none (email : string) (l : list User.t) :
  find (has_email email) l = None ->
  mem_str email (non_null (map User.email l)) = false.
Proof.
  intros Hf. destruct (mem_str email _) eqn:E; [|reflexivity].
  exfalso. apply mem_str_In in E. rewrite find_none_iff in Hf.
  induction l as [|x l IH]; simpl in E; [contradiction|].
  pose proof (Hf x (or_introl eq_refl)) as Hx. unfold has_email in Hx.
  destruct (User.email x) as [e|] eqn:Ex.
  - destruct E as [->|E].
    + simpl in Hx. rewrite String.eqb_refl in Hx. discriminate.
    + apply IH; [intros r Hr; apply Hf; right; assumption | assumption].
  - apply IH; [intros r Hr; apply Hf; right; assumption | assumption].
Qed.

Lemma seq_ahead_fresh (db : Database) :
  seq_ahead db = true -> mem_int (users_id_seq db + 1) (user_ids db) = false.
Proof.
  unfold seq_ahead. rewrite andb_true_iff. intros [H _].
  destruct (mem_int _ _) eqn:E; [|reflexivity].
  apply mem_int_In in E. rewrite forallb_forall in H.
  apply H in E. apply Z.leb_le in E. lia.
Qed.

Section Registration.
Variable bcrypt_hash : string -> string -> string.

Lemma create_user_run salt rng user w :
  main.create_user bcrypt_hash salt rng user w =
  match find (has_email (uc_email user)) (users (w_db w)) with
  | Some _ => (Raise conflict, logged w [SELECT Users])
  | None =>
      if mem_int (users_id_seq (w_db w) + 1) (user_ids (w_db w))
         || mem_str (crud.code_generation rng 6) (user_codes (w_db w))
      then (Raise IntegrityError, logged w [SELECT Users; INSERT Users])
      else
        (Ret (new_user bcrypt_hash (w_db w) salt rng user),
         mkWorld
           (mkDatabase (users (w_db w) ++ [new_user bcrypt_hash (w_db w) salt rng user])
                       (contacts (w_db w))
                       (users_id_seq (w_db w) + 1)
                       (contacts_id_seq (w_db w)))
           (w_outbox w
            ++ [mkMail (uc_email user) "Verification Code"
                       ("Your verification code is: "
                        ++ crud.code_generation rng 6)%string])
           (w_log w ++ [SELECT Users; INSERT Users; SELECT Users]))
  end.
Proof.
  unfold main.create_user, crud.get_user_by_email, bind.
  rewrite query_user_first_run. fold (has_email (uc_email user)).
  destruct (find (has_email (uc_email user)) (users (w_db w))) eqn:Hfind;
    [reflexivity|].
  apply find_email_none in Hfind.
  unfold crud.create_user, add_commit_user, bind, emit, get_db. simpl.
  unfold user_emails. rewrite Hfind, orb_false_r.
  fold (user_ids (w_db w)).
  destruct (mem_int (users_id_seq (w_db w) + 1) (user_ids (w_db w))) eqn:Epk;
    simpl.
  - unfold raise, logged. simpl. rewrite <- app_assoc. reflexivity.
  - destruct (mem_str (crud.code_generation rng 6) (user_codes (w_db w)))
      eqn:Ecode; simpl.
    + unfold raise, logged. simpl. rewrite <- app_assoc. reflexivity.
    + unfold put_db, ret. simpl. rewrite refresh_user_run. simpl.
      rewrite (find_app_fresh _ _ (new_user bcrypt_hash (w_db w) salt rng user)).
      * unfold send_verification_email, deliver, logged. simpl.
        rewrite <- !app_assoc. reflexivity.
      * intros r Hr. apply Z.eqb_neq. intros E.
        assert (In (users_id_seq (w_db w) + 1) (user_ids (w_db w))).
        { rewrite <- E. unfold user_ids. apply in_map. assumption. }
        apply mem_int_In in H. congruence.
      * simpl. apply Z.eqb_refl.
Qed.
End Registration.

Section RegistrationClaim.
Variable bcrypt_hash : string -> string -> string.
(** A bcrypt digest is never the secret it was computed from. *)
Hypothesis bcrypt_not_plain : forall salt p, bcrypt_hash salt p <> p.

(** C4 (amended).  Registration.  The generated code always has six
    characters, each an upper-case letter or a digit.  If a user with the
    requested e-mail exists, the endpoint raises HTTP 409, stores nothing
    and sends nothing.  Otherwise, when the generated code is carried by no
    stored user, it appends exactly one user whose [hashed_password] is
    the bcrypt hash of the submitted password and not the password itself,
    whose [verification_code] is the generated code and whose
    [is_verified] is False, and it hands to the mail server one message
    for the submitted address whose body ends with that code; when the
    generated code is already stored, the unique constraint refuses the
    INSERT: nothing is stored and nothing is sent. *)
Theorem C4_registration
  (salt : string) (rng : nat -> nat) (user : UserCreate) (w : World)
  (Hseq : seq_ahead (w_db w) = true) :
  let code := crud.code_generation rng 6 in
  is_code 6 code
  /\
  ((exists u, In u (users (w_db w)) /\ User.email u = Some (uc_email user)) ->
   exists w',
     main.create_user bcrypt_hash salt rng user w = (Raise conflict, w')
     /\ w_db w' = w_db w /\ w_outbox w' = w_outbox w)
  /\
  ((forall u, In u (users (w_db w)) -> User.email u <> Some (uc_email user)) ->
   (mem_str code (user_codes (w_db w)) = false ->
    exists u w',
      main.create_user bcrypt_hash salt rng user w = (Ret u, w')
      /\ users (w_db w') = users (w_db w) ++ [u]
      /\ contacts (w_db w') = contacts (w_db w)
      /\ User.email u = Some (uc_email user)
      /\ User.hashed_password u
         = Some (security.get_password_hash bcrypt_hash salt (uc_password user))
      /\ User.hashed_password u <> Some (uc_password user)
      /\ User.verification_code u = Some code
      /\ User.is_verified u = Some false
      /\ w_outbox w'
         = w_outbox w
           ++ [mkMail (uc_email user) "Verification Code"
                      ("Your verification code is: " ++ code)%string])
   /\
   (mem_str code (user_codes (w_db w)) = true ->
    exists w',
      main.create_user bcrypt_hash salt rng user w = (Raise IntegrityError, w')
      /\ w_db w' = w_db w /\ w_outbox w' = w_outbox w)).
Proof.
  intros code. split; [apply code_generation_is_code|].
  rewrite create_user_run. fold code.
  rewrite (seq_ahead_fresh _ Hseq). simpl orb. split.
  - intros (u & Hin & He).
    destruct (find (has_email (uc_email user)) (users (w_db w))) eqn:Hfind.
    + eexists. repeat split.
    + exfalso. rewrite find_none_iff in Hfind. specialize (Hfind u Hin).
      unfold has_email in Hfind. apply sql_eq_str_true in He. congruence.
  - intros Hnone.
    assert (Hfind : find (has_email (uc_email user)) (users (w_db w)) = None).
    { apply find_none_iff. intros r Hr. unfold has_email.
      destruct (sql_eq_str (User.email r) (uc_email user)) eqn:E;
        [|reflexivity].
      apply sql_eq_str_true in E. exfalso. eapply Hnone; eassumption. }
    rewrite Hfind. split; intros Hcode; rewrite Hcode.
    + eexists. eexists. split; [reflexivity|]. simpl.
      repeat split. intros [= E]. eapply bcrypt_not_plain. exact E.
    + eexists. repeat split.
Qed.
End RegistrationClaim.

Lemma string_length_append (a b : string) :
  String.length (a ++ b)%string = (String.length a + String.length b)%nat.
Proof. induction a as [|c a IH]; simpl; congruence. Qed.

Lemma ref_bcrypt_not_plain (salt p : string) : ref_bcrypt_hash salt p <> p.
Proof.
  intros E. apply (f_equal String.length) in E. unfold ref_bcrypt_hash in E.
  rewrite !string_length_append in E. simpl in E. lia.
Qed.

Lemma C4_registration_witness :
  seq_ahead sample_db = true
  /\ exists u w',
      main.create_user ref_bcrypt_hash "salt" fresh_rng sample_signup
                       (world_of sample_db) = (Ret u, w')
      /\ users (w_db w') = users sample_db ++ [u]
      /\ User.verification_code u = Some "QWERTY".
Proof.
  split; [reflexivity|].
  destruct (C4_registration ref_bcrypt_hash ref_bcrypt_not_plain "salt" fresh_rng
              sample_signup (world_of sample_db) eq_refl) as (_ & _ & H).
  destruct H as [H _].
  - simpl. intros u [<-|[<-|[]]]; simpl; discriminate.
  - destruct (H eq_refl) as (u & w' & Hrun & Hu & _ & _ & _ & _ & Hc & _).
    exists u, w'. repeat split; assumption.
Defined.

(** C4 as stated fails: the requested e-mail is not registered, yet the
    endpoint creates no user (and sends no mail), because the generated
    code equals the stored code of another user. *)
Lemma C4_registration_counterexample :
  (forall u, In u (users sample_db) -> User.email u <> Some (uc_email sample_signup))
  /\ crud.code_generation colliding_rng 6 = "AB12CD"
  /\ exists w',
      main.create_user ref_bcrypt_hash "salt" colliding_rng sample_signup
                       (world_of sample_db) = (Raise IntegrityError, w')
      /\ users (w_db w') = users sample_db
      /\ w_outbox w' = [].
Proof.
  split; [|split].
  - simpl. intros u [<-|[<-|[]]]; simpl; discriminate.
  - reflexivity.
  - eexists. split; [reflexivity|]. split; reflexivity.
Qed.

(** ** Avatar upload *)

Section Avatar.
Variable cloudinary_upload : string -> string.

Lemma update_user_avatar_run user_id file w :
  crud.update_user_avatar cloudinary_upload user_id file w =
  match find (fun u => User.id u =? user_id) (users (w_db w)) with
  | Some u =>
      (Ret (Some (mkUserInstance u (Some (cloudinary_upload file)))),
       logged w [SELECT Users; SELECT Users])
  | None => (Ret None, logged w [SELECT Users])
  end.
Proof.
  unfold crud.update_user_avatar, bind. rewrite query_user_first_run.
  destruct (find (fun u => User.id u =? user_id) (users (w_db w)))
    as [u|] eqn:Hfind; [|reflexivity].
  rewrite commit_user_run.
  destruct (user_eq_dec u u) as [_|E]; [|contradiction].
  rewrite refresh_user_run. simpl.
  assert (Hid : User.id u = user_id).
  { apply find_some in Hfind. destruct Hfind as [_ H].
    apply Z.eqb_eq in H. exact H. }
  rewrite Hid, Hfind. unfold ret, logged. simpl.
  rewrite <- app_assoc. reflexivity.
Qed.

(** The avatar handler never writes to the database: it raises HTTP 403
    and does nothing when the path id is not the caller's id; otherwise
    the URL returned by the upload is placed on the returned object only. *)
Lemma update_avatar_frame (user_id : Z) (file : string) (cu : User.t)
      (w : World) :
  (user_id <> User.id cu ->
   main.update_avatar cloudinary_upload user_id file cu w = (Raise forbidden, w))
  /\
  (user_id = User.id cu ->
   exists r w',
     main.update_avatar cloudinary_upload user_id file cu w = (r, w')
     /\ w_db w' = w_db w
     /\ w_outbox w' = w_outbox w
     /\ forall x, r = Ret (Some x) ->
                  avatar_url x = Some (cloudinary_upload file)
                  /\ In (columns x) (users (w_db w))
                  /\ User.id (columns x) = user_id).
Proof.
  unfold main.update_avatar. split; intros H.
  - apply Z.eqb_neq in H. rewrite H. reflexivity.
  - assert (Hrun : main.update_avatar cloudinary_upload user_id file cu w
                   = crud.update_user_avatar cloudinary_upload user_id file w).
    { unfold main.update_avatar. apply Z.eqb_eq in H. rewrite H. reflexivity. }
    fold (main.update_avatar cloudinary_upload user_id file cu).
    rewrite Hrun, update_user_avatar_run.
    destruct (find (fun u => User.id u =? user_id) (users (w_db w)))
      as [u|] eqn:Hfind.
    + apply find_some in Hfind. destruct Hfind as [Hin E].
      apply Z.eqb_eq in E.
      eexists. eexists. split; [reflexivity|].
      split; [reflexivity|]. split; [reflexivity|].
      intros x [= <-]. simpl. auto.
    + eexists. eexists. split; [reflexivity|].
      split; [reflexivity|]. split; [reflexivity|].
      intros x [=].
Qed.
End Avatar.

(** C7 (the code at the failing input).  The caller updates their own
    avatar: the handler answers with the user object carrying the uploaded
    URL, but the stored user, and the whole database, is what it was
    before; [models.User] maps no [avatar_url] column, so the commit has
    nothing to write and the two statements sent are SELECTs. *)
Theorem C7_avatar_url_not_persisted :
  main.update_avatar sample_upload 1 "PNG" sample_user (world_of sample_db)
  = (Ret (Some (mkUserInstance
                  sample_user
                  (Some "http://res.cloudinary.com/demo/image/upload/avatar.png"))),
     mkWorld sample_db [] [SELECT Users; SELECT Users])
  /\ find (fun u => User.id u =? 1) (users sample_db) = Some sample_user.
Proof. split; reflexivity. Qed.

(** ** Handlers are thin *)

Ltac finish_thin :=
  unfold thin, logged, ret, raise; simpl; rewrite <- ?app_assoc; simpl;
  first [ exists (@nil sql); split; [rewrite app_nil_r; reflexivity|]
        | eexists; split; [reflexivity|] ];
  simpl; repeat split; try lia; try discriminate.

Lemma snd_bind_ret {A B} (m : M A) (f : A -> B) (w : World) :
  snd (bind m (fun x => ret (f x)) w) = snd (m w).
Proof. unfold bind, ret. destruct (m w) as [[a|e] w']; reflexivity. Qed.

Lemma thin_read_contact contact_id cu w :
  thin true w (snd (main.read_contact contact_id cu w)).
Proof.
  unfold main.read_contact, bind. rewrite get_contact_run.
  case_find; finish_thin.
Qed.

Lemma thin_read_contacts skip limit cu w :
  thin true w (snd (main.read_contacts skip limit cu w)).
Proof.
  unfold main.read_contacts, crud.get_user_contacts, query_contact_page.
  unfold_session. simpl.
  destruct ((skip <? 0) || (limit <? 0)); finish_thin.
Qed.

Lemma thin_get_upcoming_birthdays today cu w :
  thin true w (snd (main.get_upcoming_birthdays today cu w)).
Proof.
  unfold main.get_upcoming_birthdays, crud.get_upcoming_birthdays.
  unfold_session. simpl.
  destruct ((MINORDINAL <=? today + 7) && (today + 7 <=? MAXORDINAL));
    finish_thin.
Qed.

Lemma thin_update_contact contact_id upd cu w :
  thin false w (snd (main.update_contact contact_id upd cu w)).
Proof.
  unfold main.update_contact, crud.update_contact, bind.
  rewrite get_contact_run. case_find; [|finish_thin].
  rewrite commit_contact_run.
  destruct (contact_eq_dec _ _); [|destruct (opt_mem_str _ _)];
    try rewrite refresh_contact_run; try case_find; finish_thin.
Qed.

Lemma thin_delete_contact contact_id cu w :
  thin false w (snd (main.delete_contact contact_id cu w)).
Proof.
  unfold main.delete_contact, crud.delete_contact, bind.
  rewrite get_contact_run. case_find; [|finish_thin].
  rewrite delete_commit_contact_run. finish_thin.
Qed.

Lemma thin_create_contact contact cu w :
  thin false w (snd (main.create_contact contact cu w)).
Proof.
  unfold main.create_contact, crud.create_contact, add_commit_contact,
    bind, emit, get_db, put_db, raise, ret. simpl.
  match goal with
  | |- context [if ?b then _ else _] => destruct b
  end; [finish_thin|].
  rewrite refresh_contact_run. case_find; finish_thin.
Qed.

Lemma thin_verify_email code w :
  thin false w (snd (main.verify_email code w)).
Proof. rewrite verify_email_run. case_find; finish_thin. Qed.

Section Thin.
Variable bcrypt_hash : string -> string -> string.
Variable bcrypt_verify : string -> string -> bool.
Variable jwt_encode : pydict -> string -> string -> string.
Variable cloudinary_upload : string -> string.

Lemma thin_update_avatar user_id file cu w :
  thin false w (snd (main.update_avatar cloudinary_upload user_id file cu w)).
Proof.
  unfold main.update_avatar.
  destruct (negb (user_id =? User.id cu)); [finish_thin|].
  rewrite update_user_avatar_run. case_find; finish_thin.
Qed.

Lemma thin_create_user salt rng user w :
  thin false w (snd (main.create_user bcrypt_hash salt rng user w)).
Proof.
  rewrite create_user_run. case_find; [finish_thin|].
  match goal with
  | |- context [if ?b then _ else _] => destruct b
  end; finish_thin.
Qed.

Lemma thin_login utcnow email password w :
  thin true w
       (snd (main.login_for_access_token bcrypt_verify jwt_encode utcnow
               email password w)).
Proof. rewrite login_run. finish_thin. Qed.

(** The body of every handler, once its current user is resolved, sends at
    most three SQL statements, at most one of which is a mutation; the
    bodies that only read send at most one statement, a SELECT, and leave
    the database unchanged. *)
Lemma app_is_thin (r : main.request) (w : World) :
  thin (read_only r) w
       (snd (main.app bcrypt_hash bcrypt_verify jwt_encode cloudinary_upload
                      r w)).
Proof.
  destruct r; unfold main.app; rewrite snd_bind_ret; simpl read_only.
  - apply thin_update_avatar.
  - apply thin_verify_email.
  - apply thin_create_user.
  - apply thin_login.
  - apply thin_create_contact.
  - apply thin_read_contacts.
  - apply thin_read_contact.
  - apply thin_update_contact.
  - apply thin_delete_contact.
  - apply thin_get_upcoming_birthdays.
Qed.
End Thin.

(** C8 as stated fails: a successful verification sends a SELECT and an
    UPDATE, a registration a SELECT, an INSERT and a SELECT, and a refused
    avatar request sends nothing. *)
Lemma C8_one_statement_counterexample :
  w_log (snd (main.verify_email "AB12CD" (world_of sample_db)))
  = [SELECT Users; UPDATE Users]
  /\ w_log (snd (main.create_user ref_bcrypt_hash "salt" fresh_rng sample_signup
                                  (world_of sample_db)))
     = [SELECT Users; INSERT Users; SELECT Users]
  /\ w_log (snd (main.update_avatar sample_upload 2 "PNG" sample_user
                                    (world_of sample_db)))
     = [].
Proof. repeat split. Qed.

(** ** The integrity constraints are an invariant *)

Lemma non_null_app {A} (l1 l2 : list (option A)) :
  non_null (l1 ++ l2) = non_null l1 ++ non_null l2.
Proof.
  induction l1 as [|[a|] l1 IH]; simpl; [reflexivity| |assumption].
  rewrite IH. reflexivity.
Qed.

Lemma NoDup_snoc {A} (l : list A) (a : A) :
  NoDup l -> ~ In a l -> NoDup (l ++ [a]).
Proof.
  intros Hl Ha. apply NoDup_app; [assumption|repeat constructor; auto|].
  intros x Hx [<-|[]]. contradiction.
Qed.

Lemma NoDup_insert {A} (l1 l2 : list A) (a : A) :
  NoDup (l1 ++ l2) -> ~ In a (l1 ++ l2) -> NoDup (l1 ++ a :: l2).
Proof.
  intros Hl Ha. apply (Permutation_NoDup (Permutation_middle l1 l2 a)).
  constructor; assumption.
Qed.

(** Replacing one value of a unique column by a value no other row has
    keeps the column unique; so does replacing it by NULL. *)
Lemma non_null_replace {A} (l1 l2 : list (option A)) (old new : option A) :
  NoDup (non_null (l1 ++ old :: l2)) ->
  (forall v, new = Some v -> ~ In v (non_null (l1 ++ l2))) ->
  NoDup (non_null (l1 ++ new :: l2)).
Proof.
  intros H Hnew.
  assert (Hrest : NoDup (non_null (l1 ++ l2))).
  { rewrite non_null_app in *. simpl in H.
    destruct old; [eapply NoDup_remove_1; eassumption | assumption]. }
  destruct new as [v|].
  - specialize (Hnew v eq_refl). rewrite non_null_app in *. simpl.
    apply NoDup_insert; assumption.
  - rewrite non_null_app in *. simpl. assumption.
Qed.

Lemma forallb_mem_int (l ids : list Z) :
  forallb (fun o => mem_int o ids) l = true <-> (forall o, In o l -> In o ids).
Proof.
  rewrite forallb_forall. split; intros H o Ho.
  - apply mem_int_In. auto.
  - apply mem_int_In. auto.
Qed.

Lemma forallb_leb (l : list Z) (n : Z) :
  forallb (fun i => i <=? n) l = true <-> (forall i, In i l -> i <= n).
Proof.
  rewrite forallb_forall. split; intros H i Hi.
  - apply Z.leb_le. auto.
  - apply Z.leb_le. auto.
Qed.

Lemma db_ok_consistent (db : Database) : db_ok db = true <-> consistent db.
Proof.
  unfold db_ok, consistent, pk_users, pk_contacts, unique_user_email,
    unique_code, unique_contact_email, fk_owner, seq_ahead.
  rewrite !andb_true_iff, !nodup_int_NoDup, !nodup_str_NoDup,
    forallb_mem_int, !forallb_leb.
  tauto.
Qed.

Lemma consistent_verified (db : Database) (code : string) (u : User.t) :
  consistent db ->
  find (has_code code) (users db) = Some u ->
  consistent (with_users db (rewrite_users (User.id u) main.mark_verified (users db))).
Proof.
  intros (Hu & Hc & Hue & Huc & Hce & Hfk & Hs1 & Hs2) Hfind.
  destruct (find_split _ _ _ Hfind) as (l1 & l2 & Hl & _ & _).
  unfold consistent, user_ids, user_emails, user_codes, contact_ids,
    contact_emails in *. simpl.
  rewrite Hl in *. rewrite rewrite_users_split by assumption.
  assert (Hids : map User.id (l1 ++ main.mark_verified u :: l2)
                 = map User.id (l1 ++ u :: l2)).
  { rewrite !map_app. reflexivity. }
  assert (Hem : map User.email (l1 ++ main.mark_verified u :: l2)
                = map User.email (l1 ++ u :: l2)).
  { rewrite !map_app. reflexivity. }
  rewrite Hids, Hem. repeat split; try assumption.
  rewrite map_app in *. simpl in *.
  eapply non_null_replace; [eassumption|discriminate].
Qed.

Lemma rewrite_contacts_other pk set (l : list Contact.t) :
  (forall r, In r l -> Contact.id r <> pk) -> rewrite_contacts pk set l = l.
Proof.
  induction l as [|x l IH]; simpl; [reflexivity|].
  intros H. rewrite IH by (intros r Hr; apply H; right; assumption).
  destruct (Contact.id x =? pk) eqn:E; [|reflexivity].
  apply Z.eqb_eq in E. exfalso. apply (H x); auto.
Qed.

Lemma not_in_others {A} (key : A -> Z) (l1 l2 : list A) (a : A) :
  NoDup (map key (l1 ++ a :: l2)) ->
  forall r, In r (l1 ++ l2) -> key r <> key a.
Proof.
  intros H r Hr E. rewrite map_app in H. simpl in H.
  apply NoDup_remove_2 in H. apply H. rewrite <- E, <- map_app.
  apply in_map. assumption.
Qed.

Lemma rewrite_contacts_split set (l1 l2 : list Contact.t) (c : Contact.t) :
  NoDup (map Contact.id (l1 ++ c :: l2)) ->
  rewrite_contacts (Contact.id c) set (l1 ++ c :: l2) = l1 ++ set c :: l2.
Proof.
  intros H. pose proof (not_in_others _ _ _ _ H) as Hne.
  unfold rewrite_contacts. rewrite map_app. simpl. rewrite Z.eqb_refl.
  fold (rewrite_contacts (Contact.id c) set l1).
  fold (rewrite_contacts (Contact.id c) set l2).
  rewrite !rewrite_contacts_other; [reflexivity| |];
    intros r Hr; apply Hne; apply in_or_app; auto.
Qed.

Lemma others_split (l1 l2 : list Contact.t) (c : Contact.t) :
  NoDup (map Contact.id (l1 ++ c :: l2)) ->
  filter (fun r => negb (Contact.id r =? Contact.id c)) (l1 ++ c :: l2)
  = l1 ++ l2.
Proof.
  intros H. pose proof (not_in_others _ _ _ _ H) as Hne.
  assert (Hkeep : forall l, (forall r, In r l -> Contact.id r <> Contact.id c) ->
                            filter (fun r => negb (Contact.id r =? Contact.id c)) l
                            = l).
  { induction l as [|x l IH]; simpl; [reflexivity|]. intros Hl.
    rewrite IH by (intros r Hr; apply Hl; right; assumption).
    destruct (Contact.id x =? Contact.id c) eqn:E; [|reflexivity].
    apply Z.eqb_eq in E. exfalso. apply (Hl x); auto. }
  rewrite filter_app. simpl. rewrite Z.eqb_refl. simpl.
  rewrite !Hkeep; [reflexivity| |];
    intros r Hr; apply Hne; apply in_or_app; auto.
Qed.

Lemma non_null_remove {A} (l1 l2 : list (option A)) (old : option A) :
  NoDup (non_null (l1 ++ old :: l2)) -> NoDup (non_null (l1 ++ l2)).
Proof.
  rewrite !non_null_app. simpl. intros H.
  destruct old; [eapply NoDup_remove_1; eassumption | assumption].
Qed.

Lemma non_null_remove_in {A} (l1 l2 : list (option A)) (old : option A) (v : A) :
  In v (non_null (l1 ++ l2)) -> In v (non_null (l1 ++ old :: l2)).
Proof.
  rewrite !non_null_app. simpl. intros H. apply in_app_or in H.
  apply in_or_app. destruct H as [H|H]; [left; assumption|right].
  destruct old; [right|]; assumption.
Qed.

Lemma consistent_updated (db : Database) (contact_id user_id : Z)
      (upd : ContactUpdate) (c : Contact.t) :
  consistent db ->
  find (owns contact_id user_id) (contacts db) = Some c ->
  opt_mem_str (Contact.email (crud.setattrs upd c))
    (non_null (map Contact.email
       (filter (fun r => negb (Contact.id r =? Contact.id c)) (contacts db))))
  = false ->
  consistent (with_contacts db
                (rewrite_contacts (Contact.id c) (crud.setattrs upd) (contacts db))).
Proof.
  intros (Hu & Hc & Hue & Huc & Hce & Hfk & Hs1 & Hs2) Hfind Hcheck.
  destruct (find_split _ _ _ Hfind) as (l1 & l2 & Hl & _ & _).
  unfold consistent, user_ids, user_emails, user_codes, contact_ids,
    contact_emails in *. simpl.
  rewrite Hl in *. rewrite rewrite_contacts_split by assumption.
  rewrite others_split in Hcheck by assumption.
  assert (Hids : map Contact.id (l1 ++ crud.setattrs upd c :: l2)
                 = map Contact.id (l1 ++ c :: l2)).
  { rewrite !map_app. reflexivity. }
  assert (Hown : map Contact.owner_id (l1 ++ crud.setattrs upd c :: l2)
                 = map Contact.owner_id (l1 ++ c :: l2)).
  { rewrite !map_app. reflexivity. }
  rewrite Hids, Hown. repeat split; try assumption.
  rewrite map_app in *. simpl map in *.
  eapply non_null_replace; [eassumption|].
  intros v [= <-] Hin. simpl in Hcheck.
  apply mem_str_In in Hin. congruence.
Qed.

Lemma consistent_deleted (db : Database) (contact_id user_id : Z)
      (c : Contact.t) :
  consistent db ->
  find (owns contact_id user_id) (contacts db) = Some c ->
  consistent (with_contacts db
                (filter (fun r => negb (Contact.id r =? Contact.id c))
                        (contacts db))).
Proof.
  intros (Hu & Hc & Hue & Huc & Hce & Hfk & Hs1 & Hs2) Hfind.
  destruct (find_split _ _ _ Hfind) as (l1 & l2 & Hl & _ & _).
  unfold consistent, user_ids, user_emails, user_codes, contact_ids,
    contact_emails in *. simpl.
  rewrite Hl in *. rewrite others_split by assumption.
  repeat split; try assumption.
  - rewrite map_app in *. simpl in Hc. eapply NoDup_remove_1; eassumption.
  - rewrite map_app in *. simpl map in Hce. eapply non_null_remove; eassumption.
  - intros o Ho. apply Hfk. rewrite map_app in *. simpl map.
    apply non_null_remove_in. assumption.
  - intros i Hi. apply Hs2. rewrite map_app in *. simpl.
    apply in_app_or in Hi. apply in_or_app.
    destruct Hi; [left|right; right]; assumption.
Qed.

Lemma consistent_user_added (db : Database) (row : User.t) :
  consistent db ->
  User.id row = users_id_seq db + 1 ->
  opt_mem_str (User.email row) (user_emails db) = false ->
  opt_mem_str (User.verification_code row) (user_codes db) = false ->
  consistent (mkDatabase (users db ++ [row]) (contacts db)
                         (users_id_seq db + 1) (contacts_id_seq db)).
Proof.
  intros (Hu & Hc & Hue & Huc & Hce & Hfk & Hs1 & Hs2) Hid He Hcode.
  unfold consistent, user_ids, user_emails, user_codes, contact_ids,
    contact_emails in *. simpl.
  rewrite !map_app, !non_null_app. simpl map.
  repeat split; try assumption.
  - apply NoDup_snoc; [assumption|]. rewrite Hid. intros Hin.
    apply Hs1 in Hin. lia.
  - destruct (User.email row) as [e|]; simpl.
    + apply NoDup_snoc; [assumption|]. intros Hin.
      apply mem_str_In in Hin. simpl in He. congruence.
    + rewrite app_nil_r. assumption.
  - destruct (User.verification_code row) as [v|]; simpl.
    + apply NoDup_snoc; [assumption|]. intros Hin.
      apply mem_str_In in Hin. simpl in Hcode. congruence.
    + rewrite app_nil_r. assumption.
  - intros o Ho. apply in_or_app. left. auto.
  - intros i Hi. apply in_app_or in Hi. destruct Hi as [Hi|[<-|[]]].
    + apply Hs1 in Hi. lia.
    + lia.
Qed.

Lemma consistent_contact_added (db : Database) (row : Contact.t) :
  consistent db ->
  Contact.id row = contacts_id_seq db + 1 ->
  opt_mem_str (Contact.email row) (contact_emails db) = false ->
  opt_mem_int (Contact.owner_id row) (user_ids db) = true ->
  consistent (mkDatabase (users db) (contacts db ++ [row])
                         (users_id_seq db) (contacts_id_seq db + 1)).
Proof.
  intros (Hu & Hc & Hue & Huc & Hce & Hfk & Hs1 & Hs2) Hid He Hown.
  unfold consistent, user_ids, user_emails, user_codes, contact_ids,
    contact_emails in *. simpl.
  rewrite !map_app, !non_null_app. simpl map.
  repeat split; try assumption.
  - apply NoDup_snoc; [assumption|]. rewrite Hid. intros Hin.
    apply Hs2 in Hin. lia.
  - destruct (Contact.email row) as [e|]; simpl.
    + apply NoDup_snoc; [assumption|]. intros Hin.
      apply mem_str_In in Hin. simpl in He. congruence.
    + rewrite app_nil_r. assumption.
  - intros o Ho. apply in_app_or in Ho. destruct Ho as [Ho|Ho]; [auto|].
    destruct (Contact.owner_id row) as [v|]; simpl in Ho; [|contradiction].
    destruct Ho as [<-|[]]. simpl in Hown. apply mem_int_In. assumption.
  - intros i Hi. apply in_app_or in Hi. destruct Hi as [Hi|[<-|[]]].
    + apply Hs2 in Hi. lia.
    + lia.
Qed.

Lemma unchanged_of_thin (w w' : World) : thin true w w' -> w_db w' = w_db w.
Proof. intros (qs & _ & _ & _ & H). apply H. reflexivity. Qed.

Lemma update_contact_consistent contact_id upd cu w :
  consistent (w_db w) ->
  consistent (w_db (snd (main.update_contact contact_id upd cu w))).
Proof.
  intros Hok. unfold main.update_contact, crud.update_contact, bind.
  rewrite get_contact_run.
  destruct (find (owns contact_id (User.id cu)) (contacts (w_db w)))
    as [c|] eqn:Hfind; [|exact Hok].
  rewrite commit_contact_run.
  destruct (contact_eq_dec _ _);
    [|destruct (opt_mem_str _ _) eqn:Hcheck];
    try rewrite refresh_contact_run; try case_find; simpl; try exact Hok;
    eapply consistent_updated; eassumption.
Qed.

Lemma delete_contact_consistent contact_id cu w :
  consistent (w_db w) ->
  consistent (w_db (snd (main.delete_contact contact_id cu w))).
Proof.
  intros Hok. unfold main.delete_contact, crud.delete_contact, bind.
  rewrite get_contact_run.
  destruct (find (owns contact_id (User.id cu)) (contacts (w_db w)))
    as [c|] eqn:Hfind; [|exact Hok].
  rewrite delete_commit_contact_run. simpl.
  eapply consistent_deleted; eassumption.
Qed.

Lemma create_contact_consistent contact cu w :
  consistent (w_db w) ->
  consistent (w_db (snd (main.create_contact contact cu w))).
Proof.
  intros Hok.
  unfold main.create_contact, crud.create_contact, add_commit_contact,
    bind, emit, get_db, put_db, raise, ret. simpl.
  destruct (mem_int (contacts_id_seq (w_db w) + 1) (contact_ids (w_db w))) eqn:E1;
    [exact Hok|].
  destruct (mem_str (cc_email contact) (contact_emails (w_db w))) eqn:E2;
    [exact Hok|].
  destruct (mem_int (User.id cu) (user_ids (w_db w))) eqn:E3; [|exact Hok].
  simpl. rewrite refresh_contact_run.
  assert (Hnew : consistent
            (mkDatabase (users (w_db w))
               (contacts (w_db w)
                ++ [Contact.mk (contacts_id_seq (w_db w) + 1)
                      (Some (cc_first_name contact)) (Some (cc_last_name contact))
                      (Some (cc_email contact)) (Some (cc_phone_number contact))
                      (Some (cc_birthday contact)) (cc_additional_info contact)
                      (Some (User.id cu))])
               (users_id_seq (w_db w)) (contacts_id_seq (w_db w) + 1))).
  { apply consistent_contact_added; auto. }
  case_find; exact Hnew.
Qed.

Lemma verify_email_consistent code w :
  consistent (w_db w) -> consistent (w_db (snd (main.verify_email code w))).
Proof.
  intros Hok. rewrite verify_email_run.
  destruct (find (has_code code) (users (w_db w))) eqn:Hfind; [|exact Hok].
  simpl. eapply consistent_verified; eassumption.
Qed.

Section Invariant.
Variable bcrypt_hash : string -> string -> string.
Variable bcrypt_verify : string -> string -> bool.
Variable jwt_encode : pydict -> string -> string -> string.
Variable cloudinary_upload : string -> string.

Lemma create_user_consistent salt rng user w :
  consistent (w_db w) ->
  consistent (w_db (snd (main.create_user bcrypt_hash salt rng user w))).
Proof.
  intros Hok. rewrite create_user_run.
  destruct (find (has_email (uc_email user)) (users (w_db w))) eqn:Hfind;
    [exact Hok|].
  destruct (mem_int _ _) eqn:E1; [exact Hok|].
  destruct (mem_str _ _) eqn:E2; [exact Hok|]. simpl.
  apply (consistent_user_added (w_db w) (new_user bcrypt_hash (w_db w) salt rng user));
    auto.
  simpl. apply find_email_none. assumption.
Qed.

(** Every handler keeps the constraints of the schema. *)
Lemma app_consistent (r : main.request) (w : World) :
  consistent (w_db w) ->
  consistent
    (w_db (snd (main.app bcrypt_hash bcrypt_verify jwt_encode cloudinary_upload
                         r w))).
Proof.
  intros Hok. destruct r; unfold main.app; rewrite snd_bind_ret.
  - destruct (Z.eq_dec user_id (User.id current_user)) as [E|E].
    + destruct (update_avatar_frame cloudinary_upload user_id file current_user w)
        as [_ H].
      destruct (H E) as (r & w' & Hrun & Hdb & _).
      rewrite Hrun. simpl. rewrite Hdb. exact Hok.
    + destruct (update_avatar_frame cloudinary_upload user_id file current_user w)
        as [H _].
      rewrite (H E). exact Hok.
  - apply verify_email_consistent. exact Hok.
  - apply create_user_consistent. exact Hok.
  - rewrite (unchanged_of_thin _ _ (thin_login _ _ _ _ _ _)). exact Hok.
  - apply create_contact_consistent. exact Hok.
  - rewrite (unchanged_of_thin _ _ (thin_read_contacts _ _ _ _)). exact Hok.
  - rewrite (unchanged_of_thin _ _ (thin_read_contact _ _ _)). exact Hok.
  - apply update_contact_consistent. exact Hok.
  - apply delete_contact_consistent. exact Hok.
  - rewrite (unchanged_of_thin _ _ (thin_get_upcoming_birthdays _ _ _)). exact Hok.
Qed.

(** In every reachable state the primary keys, the unique columns, the
    foreign key and the sequences are as [models.py] declares them; these are
    the hypotheses of the properties above. *)
Theorem reachable_db_ok (w : World) :
  reachable bcrypt_hash bcrypt_verify jwt_encode cloudinary_upload w ->
  db_ok (w_db w) = true.
Proof.
  intros H. apply db_ok_consistent. induction H as [|w r _ IH].
  - apply db_ok_consistent. reflexivity.
  - apply app_consistent. exact IH.
Qed.
End Invariant.

(** * Further properties of the code *)

(** ** Listing contacts *)

Lemma get_user_contacts_run user_id skip limit w :
  crud.get_user_contacts user_id skip limit w =
  (if (skip <? 0) || (limit <? 0) then Raise DataError
   else Ret (firstn (Z.to_nat limit)
               (skipn (Z.to_nat skip)
                  (filter (owned_by user_id) (contacts (w_db w))))),
   logged w [SELECT Contacts]).
Proof.
  unfold crud.get_user_contacts, query_contact_page. unfold_session. simpl.
  destruct ((skip <? 0) || (limit <? 0)); reflexivity.
Qed.

(** X1. [crud.get_user_contacts] with a non-negative [skip] and [limit]
    returns the user's contacts number [skip + 1] to [skip + limit] in
    storage order: never more than [limit] of them, and all of them when
    [skip] is 0 and [limit] is at least their number.  A negative [skip] or
    [limit] is refused by the database with a [DataError].  In all cases the
    database is unchanged. *)
Theorem X1_get_user_contacts_window
  (user_id skip limit : Z) (w : World) :
  let mine := filter (owned_by user_id) (contacts (w_db w)) in
  (0 <= skip -> 0 <= limit ->
   exists l,
     crud.get_user_contacts user_id skip limit w
     = (Ret l, logged w [SELECT Contacts])
     /\ l = firstn (Z.to_nat limit) (skipn (Z.to_nat skip) mine)
     /\ Z.of_nat (List.length l) <= limit
     /\ (skip = 0 -> Z.of_nat (List.length mine) <= limit -> l = mine))
  /\
  (skip < 0 \/ limit < 0 ->
   crud.get_user_contacts user_id skip limit w
   = (Raise DataError, logged w [SELECT Contacts])).
Proof.
  intros mine. rewrite get_user_contacts_run. fold mine. split.
  - intros Hs Hl.
    assert (E : (skip <? 0) || (limit <? 0) = false).
    { apply orb_false_iff. split; apply Z.ltb_ge; assumption. }
    rewrite E. eexists. split; [reflexivity|]. split; [reflexivity|]. split.
    + pose proof (firstn_le_length (Z.to_nat limit)
                    (skipn (Z.to_nat skip) mine)). lia.
    + intros -> Hall. simpl. apply firstn_all2. lia.
  - intros H.
    assert (E : (skip <? 0) || (limit <? 0) = true).
    { apply orb_true_iff. destruct H; [left|right]; apply Z.ltb_lt; assumption. }
    rewrite E. reflexivity.
Qed.

Lemma X1_get_user_contacts_window_witness :
  exists l,
    crud.get_user_contacts 1 1 1 (world_of sample_db)
    = (Ret l, logged (world_of sample_db) [SELECT Contacts])
    /\ l = [sample_contact 2 "b2@example.com" 739005 1].
Proof.
  destruct (X1_get_user_contacts_window 1 1 1 (world_of sample_db)) as [H _].
  destruct H as (l & Hrun & Hl & _); [lia|lia|].
  exists l. split; [exact Hrun|]. rewrite Hl. reflexivity.
Defined.

(** ** Creating a contact *)

Lemma seq_ahead_fresh_contact (db : Database) :
  seq_ahead db = true ->
  forall c, In c (contacts db) -> Contact.id c <> contacts_id_seq db + 1.
Proof.
  unfold seq_ahead. rewrite andb_true_iff. intros [_ H] c Hc E.
  rewrite forallb_forall in H.
  assert (Hin : In (Contact.id c) (contact_ids db)) by (apply in_map; assumption).
  apply H in Hin. apply Z.leb_le in Hin. lia.
Qed.

Lemma create_contact_run contact user_id w :
  crud.create_contact contact user_id w =
  if mem_int (contacts_id_seq (w_db w) + 1) (contact_ids (w_db w))
     || mem_str (cc_email contact) (contact_emails (w_db w))
     || negb (mem_int user_id (user_ids (w_db w)))
  then (Raise IntegrityError, logged w [INSERT Contacts])
  else (Ret (new_contact (w_db w) contact user_id),
        mkWorld (mkDatabase (users (w_db w))
                   (contacts (w_db w) ++ [new_contact (w_db w) contact user_id])
                   (users_id_seq (w_db w)) (contacts_id_seq (w_db w) + 1))
                (w_outbox w) (w_log w ++ [INSERT Contacts; SELECT Contacts])).
Proof.
  unfold crud.create_contact, add_commit_contact, bind, emit, get_db, put_db,
    raise, ret. simpl.
  destruct (mem_int (contacts_id_seq (w_db w) + 1) (contact_ids (w_db w)))
    eqn:Epk; [reflexivity|].
  destruct (mem_str (cc_email contact) (contact_emails (w_db w)));
    [reflexivity|].
  destruct (mem_int user_id (user_ids (w_db w))); [|reflexivity].
  simpl. rewrite refresh_contact_run. simpl.
  rewrite (find_app_fresh _ _ (new_contact (w_db w) contact user_id)).
  - unfold logged. simpl. rewrite <- app_assoc. reflexivity.
  - intros r Hr. apply Z.eqb_neq. intros E.
    assert (In (contacts_id_seq (w_db w) + 1) (contact_ids (w_db w))).
    { rewrite <- E. unfold contact_ids. apply in_map. assumption. }
    apply mem_int_In in H. congruence.
  - simpl. apply Z.eqb_refl.
Qed.

(** X3. [crud.create_contact], in a database whose sequences are ahead of
    the stored keys: when the owner is a stored user and no stored contact
    (of any user) has the submitted e-mail, exactly one contact is appended,
    with the next key, the submitted fields and the caller as owner, and that
    row is returned; users and mail are untouched.  When a stored contact
    already has that e-mail, or the owner is not a stored user, the INSERT
    is refused with an [IntegrityError] and nothing is stored. *)
Theorem X3_create_contact
  (contact : ContactCreate) (user_id : Z) (w : World)
  (Hseq : seq_ahead (w_db w) = true) :
  (In user_id (user_ids (w_db w)) ->
   ~ In (cc_email contact) (contact_emails (w_db w)) ->
   exists c w',
     crud.create_contact contact user_id w = (Ret c, w')
     /\ c = new_contact (w_db w) contact user_id
     /\ contacts (w_db w') = contacts (w_db w) ++ [c]
     /\ users (w_db w') = users (w_db w)
     /\ w_outbox w' = w_outbox w)
  /\
  (~ In user_id (user_ids (w_db w))
   \/ In (cc_email contact) (contact_emails (w_db w)) ->
   exists w',
     crud.create_contact contact user_id w = (Raise IntegrityError, w')
     /\ w_db w' = w_db w).
Proof.
  rewrite create_contact_run.
  assert (Hpk : mem_int (contacts_id_seq (w_db w) + 1) (contact_ids (w_db w))
                = false).
  { destruct (mem_int _ _) eqn:E; [|reflexivity]. apply mem_int_In in E.
    unfold contact_ids in E. apply in_map_iff in E.
    destruct E as (c & Hid & Hc). exfalso.
    eapply seq_ahead_fresh_contact; eassumption. }
  rewrite Hpk. simpl orb. split.
  - intros Hu He. apply mem_int_In in Hu. rewrite Hu.
    assert (E : mem_str (cc_email contact) (contact_emails (w_db w)) = false).
    { destruct (mem_str (cc_email contact) (contact_emails (w_db w))) eqn:E;
        [|reflexivity].
      apply mem_str_In in E. contradiction. }
    rewrite E. simpl. eexists. eexists. repeat split.
  - intros [Hu|He].
    + assert (E : mem_int user_id (user_ids (w_db w)) = false).
      { destruct (mem_int user_id (user_ids (w_db w))) eqn:E; [|reflexivity].
        apply mem_int_In in E. contradiction. }
      rewrite E, orb_true_r. eexists. split; reflexivity.
    + apply mem_str_In in He. rewrite He. simpl. eexists. split; reflexivity.
Qed.

Lemma X3_create_contact_witness :
  exists c w',
    crud.create_contact sample_new_contact 2 (world_of sample_db) = (Ret c, w')
    /\ Contact.id c = 5
    /\ contacts (w_db w') = contacts sample_db ++ [c].
Proof.
  destruct (X3_create_contact sample_new_contact 2 (world_of sample_db) eq_refl)
    as [H _].
  destruct H as (c & w' & Hrun & Hc & Hl & _).
  - simpl. auto.
  - simpl. intros [H|[H|[H|[H|[]]]]]; discriminate.
  - exists c, w'. repeat split; try assumption. rewrite Hc. reflexivity.
Defined.

(** X4. A contact that was just created can be read back by its owner
    under the returned id, and by nobody else: for the owner
    [main.read_contact] returns the created row, for a current user with
    another id it raises HTTP 404. *)
Theorem X4_create_then_read
  (contact : ContactCreate) (cu other : User.t) (w w' : World) (c : Contact.t)
  (Hseq : seq_ahead (w_db w) = true)
  (Hcreate : main.create_contact contact cu w = (Ret c, w'))
  (Hother : User.id other <> User.id cu) :
  main.read_contact (Contact.id c) cu w'
  = (Ret c, logged w' [SELECT Contacts])
  /\ main.read_contact (Contact.id c) other w'
     = (Raise (HTTPException 404 "Contact not found"),
        logged w' [SELECT Contacts]).
Proof.
  unfold main.create_contact in Hcreate. rewrite create_contact_run in Hcreate.
  destruct (_ || _ || _) eqn:Echeck; [discriminate|].
  injection Hcreate as <- <-.
  pose proof (seq_ahead_fresh_contact _ Hseq) as Hfresh.
  unfold main.read_contact, bind. rewrite !get_contact_run. simpl.
  split.
  - rewrite (find_app_fresh _ _ (new_contact (w_db w) contact (User.id cu))).
    + reflexivity.
    + intros r Hr. unfold owns. apply andb_false_iff. left.
      apply Z.eqb_neq. apply Hfresh. assumption.
    + unfold owns. simpl. rewrite !Z.eqb_refl. reflexivity.
  - assert (Hnone : find (owns (contacts_id_seq (w_db w) + 1) (User.id other))
                      (contacts (w_db w)
                       ++ [new_contact (w_db w) contact (User.id cu)]) = None).
    { apply find_none_iff. intros r Hr. unfold owns.
      apply in_app_or in Hr. destruct Hr as [Hr|[<-|[]]].
      - apply andb_false_iff. left. apply Z.eqb_neq. apply Hfresh. assumption.
      - simpl. rewrite Z.eqb_refl. simpl. apply Z.eqb_neq. congruence. }
    rewrite Hnone. reflexivity.
Qed.

Lemma X4_create_then_read_witness :
  exists c w',
    main.create_contact sample_new_contact sample_user (world_of sample_db)
    = (Ret c, w')
    /\ main.read_contact (Contact.id c) sample_user w'
       = (Ret c, logged w' [SELECT Contacts]).
Proof.
  eexists. eexists. split; [reflexivity|].
  refine (proj1 (X4_create_then_read sample_new_contact sample_user
                   (User.mk 2 None None None None None) (world_of sample_db)
                   _ _ eq_refl eq_refl _)).
  simpl. discriminate.
Defined.

(** ** Updating and deleting a contact *)

Lemma find_middle {A} (p : A -> bool) (l1 l2 : list A) (x : A) :
  (forall r, In r l1 -> p r = false) -> p x = true ->
  find p (l1 ++ x :: l2) = Some x.
Proof.
  induction l1 as [|y l1 IH]; simpl; intros Hl Hx.
  - rewrite Hx. reflexivity.
  - rewrite (Hl y (or_introl eq_refl)). apply IH; auto.
Qed.

(** The table around the contact [crud.get_contact] finds. *)
Lemma owned_contact_split contact_id user_id (db : Database) (c : Contact.t) :
  NoDup (contact_ids db) ->
  find (owns contact_id user_id) (contacts db) = Some c ->
  exists l1 l2,
    contacts db = l1 ++ c :: l2
    /\ Contact.id c = contact_id
    /\ Contact.owner_id c = Some user_id
    /\ forall r, In r (l1 ++ l2) -> Contact.id r <> Contact.id c.
Proof.
  intros Hpk Hfind.
  destruct (find_split _ _ _ Hfind) as (l1 & l2 & Hl & Ho & _).
  apply owns_true in Ho. destruct Ho as [Hid Hown].
  exists l1, l2. repeat split; try assumption.
  unfold contact_ids in Hpk. rewrite Hl in Hpk.
  apply (not_in_others _ _ _ _ Hpk).
Qed.

Lemma update_contact_found
  (contact_id user_id : Z) (upd : ContactUpdate) (w : World) (c : Contact.t)
  (Hpk : pk_contacts (w_db w) = true)
  (Hfind : find (owns contact_id user_id) (contacts (w_db w)) = Some c)
  (Hfree : forall r, In r (contacts (w_db w)) -> Contact.id r <> Contact.id c ->
                     Contact.email r <> Some (cu_email upd)) :
  exists l1 l2 w',
    contacts (w_db w) = l1 ++ c :: l2
    /\ (forall r, In r (l1 ++ l2) -> Contact.id r <> Contact.id c)
    /\ Contact.id c = contact_id
    /\ Contact.owner_id c = Some user_id
    /\ crud.update_contact contact_id upd user_id w
       = (Ret (Some (crud.setattrs upd c)), w')
    /\ contacts (w_db w') = l1 ++ crud.setattrs upd c :: l2
    /\ users (w_db w') = users (w_db w).
Proof.
  apply nodup_int_NoDup in Hpk.
  destruct (owned_contact_split _ _ _ _ Hpk Hfind)
    as (l1 & l2 & Hl & Hid & Hown & Hne).
  exists l1, l2.
  assert (Hrefresh : forall x, Contact.id x = Contact.id c ->
            find (fun r => Contact.id r =? Contact.id c) (l1 ++ x :: l2) = Some x).
  { intros x Hx. apply find_middle.
    - intros r Hr. apply Z.eqb_neq. apply Hne. apply in_or_app. auto.
    - apply Z.eqb_eq. assumption. }
  unfold crud.update_contact, bind. rewrite get_contact_run, Hfind.
  rewrite commit_contact_run.
  destruct (contact_eq_dec (crud.setattrs upd c) c) as [E|E].
  - rewrite refresh_contact_run. simpl. rewrite Hl, (Hrefresh c eq_refl), E.
    eexists. repeat split; auto.
  - assert (Hcheck :
      opt_mem_str (Contact.email (crud.setattrs upd c))
        (non_null (map Contact.email
           (filter (fun r => negb (Contact.id r =? Contact.id c))
                   (contacts (w_db w))))) = false).
    { simpl. destruct (mem_str _ _) eqn:Em; [|reflexivity]. exfalso.
      apply mem_str_In in Em.
      assert (Hex : exists r, In r (filter (fun r => negb (Contact.id r =? Contact.id c))
                                      (contacts (w_db w)))
                              /\ Contact.email r = Some (cu_email upd)).
      { clear - Em. induction (filter _ _) as [|x l IH]; simpl in Em;
          [contradiction|].
        destruct (Contact.email x) as [e|] eqn:Ex.
        - destruct Em as [->|Em].
          + exists x. split; [left; reflexivity|assumption].
          + destruct (IH Em) as (r & Hr & He). exists r. split; [right|]; auto.
        - destruct (IH Em) as (r & Hr & He). exists r. split; [right|]; auto. }
      destruct Hex as (r & Hr & He). apply filter_In in Hr.
      destruct Hr as [Hin Hk]. apply negb_true_iff, Z.eqb_neq in Hk.
      eapply Hfree; eassumption. }
    unfold logged. cbn [w_db w_outbox w_log].
    rewrite Hcheck, refresh_contact_run. simpl.
    assert (Hpk' : NoDup (map Contact.id (l1 ++ c :: l2))).
    { unfold contact_ids in Hpk. rewrite Hl in Hpk. exact Hpk. }
    rewrite Hl, (rewrite_contacts_split _ _ _ _ Hpk').
    rewrite (Hrefresh (crud.setattrs upd c) eq_refl).
    eexists. repeat split; auto.
Qed.

(** X5. [crud.update_contact] on a contact the user owns, when no other
    stored contact has the new e-mail: the stored row is replaced in place
    by the row carrying the submitted first name, last name, e-mail, phone
    number and birthday; its id and owner are kept; [additional_info] is
    overwritten only when the request set it, and kept otherwise; every
    other contact and every user is unchanged, and the new row is
    returned. *)
Theorem X5_update_contact_in_place
  (contact_id user_id : Z) (upd : ContactUpdate) (w : World) (c : Contact.t)
  (Hpk : pk_contacts (w_db w) = true)
  (Hfind : find (owns contact_id user_id) (contacts (w_db w)) = Some c)
  (Hfree : forall r, In r (contacts (w_db w)) -> Contact.id r <> Contact.id c ->
                     Contact.email r <> Some (cu_email upd)) :
  exists l1 l2 c' w',
    contacts (w_db w) = l1 ++ c :: l2
    /\ crud.update_contact contact_id upd user_id w = (Ret (Some c'), w')
    /\ contacts (w_db w') = l1 ++ c' :: l2
    /\ users (w_db w') = users (w_db w)
    /\ c' = Contact.mk contact_id
                       (Some (cu_first_name upd))
                       (Some (cu_last_name upd))
                       (Some (cu_email upd))
                       (Some (cu_phone_number upd))
                       (Some (cu_birthday upd))
                       (match cu_additional_info upd with
                        | Some v => v
                        | None => Contact.additional_info c
                        end)
                       (Some user_id).
Proof.
  destruct (update_contact_found contact_id user_id upd w c Hpk Hfind Hfree)
    as (l1 & l2 & w' & Hl & _ & Hid & Hown & Hrun & Hl' & Hu).
  exists l1, l2, (crud.setattrs upd c), w'.
  split; [exact Hl|]. split; [exact Hrun|]. split; [exact Hl'|].
  split; [exact Hu|].
  unfold crud.setattrs. rewrite Hid, Hown. reflexivity.
Qed.

Lemma X5_update_contact_in_place_witness :
  exists w',
    crud.update_contact 2 sample_update 1 (world_of sample_db)
    = (Ret (Some (Contact.mk 2 (Some "Bob") (Some "Ray")
                             (Some "new@example.com") (Some "556")
                             (Some 739001) None (Some 1))), w').
Proof.
  destruct (X5_update_contact_in_place 2 1 sample_update (world_of sample_db)
              (sample_contact 2 "b2@example.com" 739005 1) eq_refl eq_refl)
    as (l1 & l2 & c' & w' & _ & Hrun & _ & _ & Hc).
  - simpl. intros r [<-|[<-|[<-|[<-|[]]]]] _; simpl; discriminate.
  - exists w'. rewrite Hrun, Hc. reflexivity.
Defined.

(** X6. [crud.update_contact] refuses to give a contact the e-mail of
    another stored contact, whoever owns that one: the commit raises an
    [IntegrityError] and the database is unchanged. *)
Theorem X6_update_contact_email_taken
  (contact_id user_id : Z) (upd : ContactUpdate) (w : World)
  (c other : Contact.t)
  (Hfind : find (owns contact_id user_id) (contacts (w_db w)) = Some c)
  (Hchange : Contact.email c <> Some (cu_email upd))
  (Hother : In other (contacts (w_db w)))
  (Hdistinct : Contact.id other <> Contact.id c)
  (Htaken : Contact.email other = Some (cu_email upd)) :
  crud.update_contact contact_id upd user_id w
  = (Raise IntegrityError, logged w [SELECT Contacts; UPDATE Contacts]).
Proof.
  unfold crud.update_contact, bind. rewrite get_contact_run, Hfind.
  rewrite commit_contact_run.
  destruct (contact_eq_dec (crud.setattrs upd c) c) as [E|E].
  - exfalso. apply Hchange. rewrite <- E. reflexivity.
  - assert (Hcheck :
      opt_mem_str (Contact.email (crud.setattrs upd c))
        (non_null (map Contact.email
           (filter (fun r => negb (Contact.id r =? Contact.id c))
                   (contacts (w_db w))))) = true).
    { simpl. apply mem_str_In. apply (non_null_in _ _ other); [|assumption].
      apply filter_In. split; [assumption|].
      apply negb_true_iff, Z.eqb_neq. assumption. }
    unfold logged. cbn [w_db w_outbox w_log].
    rewrite Hcheck. rewrite <- app_assoc. reflexivity.
Qed.

Lemma X6_update_contact_email_taken_witness :
  crud.update_contact 2
    (mkContactUpdate "Bob" "Ray" "b3@example.com" "555" 739005 None) 1
    (world_of sample_db)
  = (Raise IntegrityError,
     logged (world_of sample_db) [SELECT Contacts; UPDATE Contacts]).
Proof.
  apply (X6_update_contact_email_taken 2 1 _ (world_of sample_db)
           (sample_contact 2 "b2@example.com" 739005 1)
           (sample_contact 3 "b3@example.com" 739003 2)).
  - reflexivity.
  - simpl. discriminate.
  - simpl. auto.
  - simpl. discriminate.
  - reflexivity.
Defined.

(** X7. [crud.delete_contact] on a contact the user owns removes exactly
    that row and returns it: the rows before and after it, and the users,
    are unchanged.  Afterwards the contact is gone for its owner too:
    reading it raises HTTP 404 and deleting it once more returns None and
    changes nothing. *)
Theorem X7_delete_contact_removes_it
  (contact_id : Z) (cu : User.t) (w : World) (c : Contact.t)
  (Hpk : pk_contacts (w_db w) = true)
  (Hfind : find (owns contact_id (User.id cu)) (contacts (w_db w)) = Some c) :
  exists l1 l2 w',
    contacts (w_db w) = l1 ++ c :: l2
    /\ crud.delete_contact contact_id (User.id cu) w = (Ret (Some c), w')
    /\ contacts (w_db w') = l1 ++ l2
    /\ users (w_db w') = users (w_db w)
    /\ main.read_contact contact_id cu w'
       = (Raise (HTTPException 404 "Contact not found"),
          logged w' [SELECT Contacts])
    /\ crud.delete_contact contact_id (User.id cu) w'
       = (Ret None, logged w' [SELECT Contacts]).
Proof.
  apply nodup_int_NoDup in Hpk.
  destruct (owned_contact_split _ _ _ _ Hpk Hfind)
    as (l1 & l2 & Hl & Hid & Hown & Hne).
  assert (Hpk' : NoDup (map Contact.id (l1 ++ c :: l2))).
  { unfold contact_ids in Hpk. rewrite Hl in Hpk. exact Hpk. }
  assert (Hgone : find (owns contact_id (User.id cu)) (l1 ++ l2) = None).
  { apply find_none_iff. intros r Hr. unfold owns.
    apply andb_false_iff. left. apply Z.eqb_neq. rewrite <- Hid.
    apply Hne. assumption. }
  exists l1, l2. eexists.
  split; [exact Hl|]. split.
  { unfold crud.delete_contact, bind. rewrite get_contact_run, Hfind.
    rewrite delete_commit_contact_run. reflexivity. }
  unfold main.read_contact, crud.delete_contact, bind.
  rewrite !get_contact_run. simpl. rewrite Hl, (others_split _ _ _ Hpk'), Hgone.
  repeat split.
Qed.

Lemma X7_delete_contact_removes_it_witness :
  exists w',
    crud.delete_contact 2 1 (world_of sample_db)
    = (Ret (Some (sample_contact 2 "b2@example.com" 739005 1)), w')
    /\ contacts (w_db w')
       = [sample_contact 1 "b1@example.com" 739000 1]
         ++ [sample_contact 3 "b3@example.com" 739003 2;
             sample_contact 4 "b4@example.com" 739008 1].
Proof.
  destruct (X7_delete_contact_removes_it 2 sample_user (world_of sample_db)
              (sample_contact 2 "b2@example.com" 739005 1) eq_refl eq_refl)
    as (l1 & l2 & w' & _ & Hrun & _).
  exists w'. split; [exact Hrun|].
  simpl in Hrun. injection Hrun as <-. reflexivity.
Defined.

(** ** Edges of the birthday window *)

(** X8. [crud.get_upcoming_birthdays] at the edges of its arithmetic: when
    [days] is beyond what [timedelta] accepts, or the end date falls outside
    Python's date range, it raises [OverflowError] before any statement is
    sent and the world is untouched; with a negative [days] that stays in
    range the window is empty and the result is the empty list. *)
Theorem X8_upcoming_birthdays_edges (today days user_id : Z) (w : World) :
  (999999999 < Z.abs days
   \/ today + days < MINORDINAL \/ MAXORDINAL < today + days ->
   crud.get_upcoming_birthdays today user_id days w = (Raise OverflowError, w))
  /\
  (days < 0 -> MINORDINAL <= today + days ->
   today + days <= MAXORDINAL -> - 999999999 <= days ->
   crud.get_upcoming_birthdays today user_id days w
   = (Ret [], logged w [SELECT Contacts])).
Proof.
  split.
  - intros H. unfold crud.get_upcoming_birthdays. unfold_session.
    destruct (Z.abs days <=? 999999999) eqn:E1; [|reflexivity].
    apply Z.leb_le in E1. simpl.
    destruct ((MINORDINAL <=? today + days) && (today + days <=? MAXORDINAL))
      eqn:E2; [|reflexivity].
    apply andb_true_iff in E2. destruct E2 as [E2 E3].
    apply Z.leb_le in E2, E3. lia.
  - intros Hneg Hlo Hhi Hd.
    rewrite get_upcoming_birthdays_run by lia.
    f_equal. f_equal.
    induction (contacts (w_db w)) as [|c l IH]; simpl; [reflexivity|].
    rewrite IH.
    assert (E : in_window today days user_id c = false).
    { destruct (in_window today days user_id c) eqn:E; [|reflexivity].
      apply in_window_upcoming in E. destruct E as (_ & b & _ & Hb). lia. }
    rewrite E. reflexivity.
Qed.

Lemma X8_upcoming_birthdays_edges_witness :
  crud.get_upcoming_birthdays 3652055 1 7 (world_of sample_db)
  = (Raise OverflowError, world_of sample_db)
  /\ crud.get_upcoming_birthdays 739006 1 (-3) (world_of sample_db)
     = (Ret [], logged (world_of sample_db) [SELECT Contacts]).
Proof.
  split.
  - apply (X8_upcoming_birthdays_edges 3652055 7 1 (world_of sample_db)).
    right. right. unfold MAXORDINAL. lia.
  - apply (X8_upcoming_birthdays_edges 739006 (-3) 1 (world_of sample_db));
      unfold MINORDINAL, MAXORDINAL; lia.
Defined.

(** ** Tokens *)

Lemma dict_get_update_same (d : pydict) (k : string) (v : pyval) :
  dict_get (dict_update d k v) k = Some v.
Proof.
  induction d as [|[k' v'] d IH]; simpl.
  - rewrite String.eqb_refl. reflexivity.
  - destruct (String.eqb k' k) eqn:E; simpl.
    + rewrite String.eqb_refl. reflexivity.
    + rewrite E. exact IH.
Qed.

Lemma dict_get_update_other (d : pydict) (k k0 : string) (v : pyval) :
  k0 <> k -> dict_get (dict_update d k v) k0 = dict_get d k0.
Proof.
  intros Hne. induction d as [|[k' v'] d IH]; simpl.
  - destruct (String.eqb k k0) eqn:E; [|reflexivity].
    apply String.eqb_eq in E. congruence.
  - destruct (String.eqb k' k) eqn:E; simpl.
    + apply String.eqb_eq in E. subst k'.
      destruct (String.eqb k k0) eqn:E0; [|reflexivity].
      apply String.eqb_eq in E0. congruence.
    + destruct (String.eqb k' k0); [reflexivity|exact IH].
Qed.

(** X9. [create_access_token] encodes, under [SECRET_KEY] and [ALGORITHM],
    the claims it was given with ["exp"] set: an ["exp"] supplied by the
    caller is overridden, every other claim is passed on as it is.  The
    expiry is the issuing time plus [expires_delta], and plus 15 minutes
    when [expires_delta] is None or a zero timedelta. *)
Theorem X9_create_access_token_claims
  (jwt_encode : pydict -> string -> string -> string)
  (utcnow : Z) (data : pydict) (expires_delta : option Z) :
  exists claims,
    security.create_access_token jwt_encode utcnow data expires_delta
    = jwt_encode claims security.SECRET_KEY security.ALGORITHM
    /\ dict_get claims "exp"
       = Some (PDatetime
                 (utcnow + match expires_delta with
                           | Some d => if d =? 0 then 15 * 60 * 1000000 else d
                           | None => 15 * 60 * 1000000
                           end))
    /\ forall k, k <> "exp" -> dict_get claims k = dict_get data k.
Proof.
  eexists. split; [reflexivity|]. split.
  - rewrite dict_get_update_same. destruct expires_delta as [d|]; [|reflexivity].
    destruct (d =? 0); reflexivity.
  - intros k Hk. apply dict_get_update_other. assumption.
Qed.

(** ** The current user *)

Lemma get_current_user_run jwt_decode utcnow token w :
  security.get_current_user jwt_decode utcnow token w =
  match jwt_decode token security.SECRET_KEY [security.ALGORITHM] utcnow with
  | None => (Raise credentials_exception, w)
  | Some payload =>
      match dict_get payload "sub" with
      | None => (Raise credentials_exception, w)
      | Some PNone => (Raise credentials_exception, w)
      | Some (PStr email) =>
          (match find (has_email email) (users (w_db w)) with
           | Some u => Ret u
           | None => Raise credentials_exception
           end, logged w [SELECT Users])
      | Some (PInt _) => (Raise ValidationError, w)
      | Some (PDatetime _) => (Raise ValidationError, w)
      end
  end.
Proof.
  unfold security.get_current_user, security.verify_token, bind.
  destruct (jwt_decode token security.SECRET_KEY [security.ALGORITHM] utcnow)
    as [payload|]; [|reflexivity].
  destruct (dict_get payload "sub") as [[email| | |]|]; try reflexivity.
  unfold ret. rewrite query_user_first_run. simpl. fold (has_email email).
  destruct (find (has_email email) (users (w_db w))); reflexivity.
Qed.

(** X10. [get_current_user] never changes the database, and it returns a
    user only if the token decodes, under [SECRET_KEY] and [ALGORITHM], to a
    payload whose ["sub"] is the e-mail of that stored user.  A token that
    does not decode, or whose payload has no ["sub"], raises HTTP 401
    before any statement is sent; a subject that is the e-mail of no stored
    user raises HTTP 401 after the lookup. *)
Theorem X10_get_current_user
  (jwt_decode : string -> string -> list string -> Z -> option pydict)
  (utcnow : Z) (token : string) (w : World) :
  let decoded :=
    jwt_decode token security.SECRET_KEY [security.ALGORITHM] utcnow in
  (forall r w',
      security.get_current_user jwt_decode utcnow token w = (r, w') ->
      w_db w' = w_db w
      /\ forall u, r = Ret u ->
           In u (users (w_db w))
           /\ exists payload email,
               decoded = Some payload
               /\ dict_get payload "sub" = Some (PStr email)
               /\ User.email u = Some email)
  /\
  (decoded = None
   \/ (exists payload, decoded = Some payload /\ dict_get payload "sub" = None) ->
   security.get_current_user jwt_decode utcnow token w
   = (Raise credentials_exception, w))
  /\
  (forall payload email,
      decoded = Some payload ->
      dict_get payload "sub" = Some (PStr email) ->
      (forall u, In u (users (w_db w)) -> User.email u <> Some email) ->
      security.get_current_user jwt_decode utcnow token w
      = (Raise credentials_exception, logged w [SELECT Users])).
Proof.
  intros decoded. rewrite get_current_user_run. fold decoded.
  split; [|split].
  - intros r w'.
    destruct decoded as [payload|]; [|intros [= <- <-]; split; [reflexivity|discriminate]].
    destruct (dict_get payload "sub") as [[email| | |]|] eqn:Hsub;
      try (intros [= <- <-]; split; [reflexivity|discriminate]).
    destruct (find (has_email email) (users (w_db w))) as [u|] eqn:Hfind;
      intros [= <- <-]; (split; [reflexivity|]); intros u' [= <-].
    apply find_some in Hfind. destruct Hfind as [Hin He].
    apply sql_eq_str_true in He. split; [assumption|].
    exists payload, email. auto.
  - intros [->|(payload & -> & ->)]; reflexivity.
  - intros payload email -> -> Hnone.
    assert (Hf : find (has_email email) (users (w_db w)) = None).
    { apply find_none_iff. intros r Hr. unfold has_email.
      destruct (sql_eq_str (User.email r) email) eqn:E; [|reflexivity].
      apply sql_eq_str_true in E. exfalso. eapply Hnone; eassumption. }
    rewrite Hf. reflexivity.
Qed.

(** X11. An endpoint declared with [Depends(get_current_user)] runs its
    handler only for a token whose subject is the e-mail of a stored user,
    and then with the first stored user of that e-mail, after the one
    lookup; for a token that does not decode or carries no subject the
    handler is not run and the world is untouched. *)
Theorem X11_authenticated_endpoint
  {A : Type}
  (jwt_decode : string -> string -> list string -> Z -> option pydict)
  (utcnow : Z) (token : string) (handler : User.t -> M A) (w : World) :
  let decoded :=
    jwt_decode token security.SECRET_KEY [security.ALGORITHM] utcnow in
  (decoded = None
   \/ (exists payload, decoded = Some payload /\ dict_get payload "sub" = None) ->
   authenticated jwt_decode utcnow token handler w
   = (Raise credentials_exception, w))
  /\
  (forall payload email,
      decoded = Some payload ->
      dict_get payload "sub" = Some (PStr email) ->
      authenticated jwt_decode utcnow token handler w
      = match find (has_email email) (users (w_db w)) with
        | Some u => handler u (logged w [SELECT Users])
        | None => (Raise credentials_exception, logged w [SELECT Users])
        end).
Proof.
  intros decoded. unfold authenticated, bind. rewrite get_current_user_run.
  fold decoded. split.
  - intros [->|(payload & -> & ->)]; reflexivity.
  - intros payload email -> ->.
    destruct (find (has_email email) (users (w_db w))); reflexivity.
Qed.

Lemma X11_authenticated_endpoint_witness :
  authenticated ref_jwt_decode 0 "" (main.delete_contact 1) (world_of sample_db)
  = (Raise credentials_exception, world_of sample_db).
Proof.
  apply (X11_authenticated_endpoint ref_jwt_decode 0 "" (main.delete_contact 1)
           (world_of sample_db)).
  left. reflexivity.
Defined.

(** ** Registration, login and verification together *)

Section Journeys.
Variable bcrypt_hash : string -> string -> string.
Variable bcrypt_verify : string -> string -> bool.
Variable jwt_encode : pydict -> string -> string -> string.
Variable jwt_decode : string -> string -> list string -> Z -> option pydict.

(** X12. The token a login returns authenticates its bearer as the user
    who logged in: while the users table is as it was at login and the clock
    is before the 30-minute expiry, [get_current_user] on that token returns
    the user the login found, after one lookup.  (python-jose's round trip
    is assumed.) *)
Theorem X12_login_token_authenticates
  (jose : jose_round_trip jwt_encode jwt_decode)
  (issued checked : Z) (email password : string) (w w1 w2 : World) (t : Token)
  (Hlogin : main.login_for_access_token bcrypt_verify jwt_encode issued
              email password w = (Ret t, w1))
  (Hsame : users (w_db w2) = users (w_db w))
  (Hbefore : checked < issued + 30 * 60 * 1000000) :
  exists u,
    find (has_email email) (users (w_db w)) = Some u
    /\ User.email u = Some email
    /\ security.verify_password bcrypt_verify password (User.hashed_password u)
       = true
    /\ token_type t = "bearer"
    /\ security.get_current_user jwt_decode checked (access_token t) w2
       = (Ret u, logged w2 [SELECT Users]).
Proof.
  rewrite login_run in Hlogin.
  destruct (find (has_email email) (users (w_db w))) as [u|] eqn:Hfind;
    [|discriminate].
  destruct (security.verify_password bcrypt_verify password
              (User.hashed_password u)) eqn:Hv; [|discriminate].
  injection Hlogin as <- _. exists u.
  pose proof Hfind as Hf. apply find_some in Hf. destruct Hf as [_ He].
  apply sql_eq_str_true in He.
  repeat split; try assumption.
  rewrite get_current_user_run. simpl access_token.
  rewrite jose by (apply Z.div_le_mono; lia).
  simpl dict_get. rewrite Hsame, Hfind. reflexivity.
Qed.

(** X13. A user who has just registered can log in with the submitted
    password, verified e-mail or not: the login finds the new user, whose
    [is_verified] is still False, and returns a bearer token.  (A bcrypt
    hash is assumed to verify against its own secret.) *)
Theorem X13_register_then_login
  (sound : bcrypt_sound bcrypt_hash bcrypt_verify)
  (salt : string) (rng : nat -> nat) (user : UserCreate)
  (utcnow : Z) (w w1 : World) (u : User.t)
  (Hreg : main.create_user bcrypt_hash salt rng user w = (Ret u, w1)) :
  User.is_verified u = Some false
  /\ exists t,
      main.login_for_access_token bcrypt_verify jwt_encode utcnow
        (uc_email user) (uc_password user) w1
      = (Ret t, logged w1 [SELECT Users])
      /\ token_type t = "bearer".
Proof.
  rewrite create_user_run in Hreg.
  destruct (find (has_email (uc_email user)) (users (w_db w))) eqn:Hfind;
    [discriminate|].
  destruct (_ || _); [discriminate|].
  injection Hreg as <- <-. split; [reflexivity|].
  rewrite login_run. simpl.
  rewrite (find_app_fresh _ _ (new_user bcrypt_hash (w_db w) salt rng user)).
  - simpl. unfold security.get_password_hash. rewrite sound.
    eexists. split; reflexivity.
  - apply find_none_iff. assumption.
  - unfold has_email. simpl. apply String.eqb_refl.
Qed.

(** X14. An e-mail can be registered once: after a successful
    registration the new user is what [crud.get_user_by_email] returns for
    that e-mail, and a further registration with it, whatever the password,
    raises HTTP 409, stores nothing and sends no mail. *)
Theorem X14_register_once
  (salt salt' : string) (rng rng' : nat -> nat) (user : UserCreate)
  (password' : string) (w w1 : World) (u : User.t)
  (Hreg : main.create_user bcrypt_hash salt rng user w = (Ret u, w1)) :
  crud.get_user_by_email (uc_email user) w1
  = (Ret (Some u), logged w1 [SELECT Users])
  /\ main.create_user bcrypt_hash salt' rng'
       (mkUserCreate (uc_email user) password') w1
     = (Raise conflict, logged w1 [SELECT Users]).
Proof.
  rewrite create_user_run in Hreg.
  destruct (find (has_email (uc_email user)) (users (w_db w))) eqn:Hfind;
    [discriminate|].
  destruct (_ || _); [discriminate|].
  injection Hreg as <- <-.
  assert (Hnew : find (has_email (uc_email user))
                   (users (w_db w) ++ [new_user bcrypt_hash (w_db w) salt rng user])
                 = Some (new_user bcrypt_hash (w_db w) salt rng user)).
  { apply find_app_fresh.
    - apply find_none_iff. assumption.
    - unfold has_email. simpl. apply String.eqb_refl. }
  split.
  - unfold crud.get_user_by_email. rewrite query_user_first_run.
    fold (has_email (uc_email user)). simpl. rewrite Hnew. reflexivity.
  - rewrite create_user_run. simpl. rewrite Hnew. reflexivity.
Qed.

(** X15. Registration and verification fit together: the code stored and
    mailed by a successful registration, presented to the verify endpoint,
    is accepted, and afterwards the users table is the one before
    registration followed by the new user with [is_verified = True] and no
    code; the earlier users are untouched. *)
Theorem X15_register_then_verify
  (salt : string) (rng : nat -> nat) (user : UserCreate)
  (w w1 : World) (u : User.t)
  (Hreg : main.create_user bcrypt_hash salt rng user w = (Ret u, w1)) :
  exists code w2,
    User.verification_code u = Some code
    /\ (exists m, In m (w_outbox w1)
                  /\ mail_to m = uc_email user
                  /\ mail_body m = ("Your verification code is: " ++ code)%string)
    /\ main.verify_email code w1 = (Ret "Email successfully verified", w2)
    /\ users (w_db w2)
       = users (w_db w)
         ++ [User.mk (User.id u) (User.email u) (User.hashed_password u)
                     (User.is_active u) (Some true) None].
Proof.
  rewrite create_user_run in Hreg. unfold new_user in Hreg.
  remember (crud.code_generation rng 6) as code eqn:Hcode.
  destruct (find (has_email (uc_email user)) (users (w_db w))) eqn:Hfind;
    [discriminate|].
  destruct (mem_int (users_id_seq (w_db w) + 1) (user_ids (w_db w))) eqn:Epk;
    [discriminate|].
  destruct (mem_str code (user_codes (w_db w))) eqn:Ecode; [discriminate|].
  simpl in Hreg. injection Hreg as <- <-.
  exists code. eexists.
  split; [reflexivity|]. split.
  { eexists. split; [apply in_or_app; right; left; reflexivity|].
    split; reflexivity. }
  rewrite verify_email_run. simpl.
  assert (Hnocode : forall r, In r (users (w_db w)) -> has_code code r = false).
  { intros r Hr. unfold has_code.
    destruct (sql_eq_str (User.verification_code r) code) eqn:E; [|reflexivity].
    apply sql_eq_str_true in E. exfalso.
    assert (In code (user_codes (w_db w)))
      by (eapply non_null_in; eassumption).
    apply mem_str_In in H. congruence. }
  rewrite (find_app_fresh _ _ _ Hnocode)
    by (unfold has_code; simpl; apply String.eqb_refl).
  split; [reflexivity|]. simpl.
  unfold rewrite_users. rewrite map_app. simpl. rewrite Z.eqb_refl.
  fold (rewrite_users (users_id_seq (w_db w) + 1) main.mark_verified
          (users (w_db w))).
  rewrite rewrite_users_other; [reflexivity|].
  intros r Hr E.
  assert (In (users_id_seq (w_db w) + 1) (user_ids (w_db w))).
  { rewrite <- E. unfold user_ids. apply in_map. assumption. }
  apply mem_int_In in H. congruence.
Qed.
End Journeys.

Lemma is_suffix_app (a p : string) : is_suffix p (a ++ p)%string = true.
Proof.
  induction a as [|c a IH].
  - change (is_suffix p ("" ++ p)%string) with (is_suffix p p).
    destruct p as [|c p]; [reflexivity|].
    change (is_suffix (String c p) (String c p))
      with (if String.eqb (String c p) (String c p) then true
            else is_suffix (String c p) p).
    rewrite String.eqb_refl. reflexivity.
  - change (is_suffix p (String c a ++ p)%string)
      with (if String.eqb (String c (a ++ p)) p then true
            else is_suffix p (a ++ p)%string).
    destruct (String.eqb (String c (a ++ p)) p); [reflexivity|exact IH].
Qed.

Lemma ref_bcrypt_sound : bcrypt_sound ref_bcrypt_hash ref_bcrypt_verify.
Proof.
  intros salt password. unfold ref_bcrypt_verify, ref_bcrypt_hash.
  apply andb_true_iff. split.
  { simpl. destruct (salt ++ password)%string; reflexivity. }
  change ("$2b$12$" ++ salt ++ password)%string
    with (("$2b$12$" ++ salt) ++ password)%string.
  apply is_suffix_app.
Qed.

Lemma X12_login_token_authenticates_witness :
  exists t w1,
    main.login_for_access_token ref_bcrypt_verify ref_jwt_encode 0
      "ann@example.com" "hash" (world_of sample_db) = (Ret t, w1)
    /\ security.get_current_user ref_jwt_decode 1000000000 (access_token t) w1
       = (Ret sample_user, logged w1 [SELECT Users]).
Proof.
  eexists. eexists. split; [reflexivity|].
  destruct (X12_login_token_authenticates ref_bcrypt_verify ref_jwt_encode
              ref_jwt_decode ref_codec_round_trip 0 1000000000
              "ann@example.com" "hash" (world_of sample_db)
              _ (logged (world_of sample_db) [SELECT Users]) _
              eq_refl eq_refl eq_refl)
    as (u & Hu & _ & _ & _ & Hrun).
  injection Hu as <-. exact Hrun.
Defined.

Lemma X13_register_then_login_witness :
  exists u w1 t,
    main.create_user ref_bcrypt_hash "salt" fresh_rng sample_signup
                     (world_of sample_db) = (Ret u, w1)
    /\ User.is_verified u = Some false
    /\ main.login_for_access_token ref_bcrypt_verify ref_jwt_encode 0
         "new@example.com" "secret" w1
       = (Ret t, logged w1 [SELECT Users]).
Proof.
  eexists. eexists.
  destruct (X13_register_then_login ref_bcrypt_hash ref_bcrypt_verify
              ref_jwt_encode ref_bcrypt_sound "salt" fresh_rng sample_signup 0
              (world_of sample_db) _ _ eq_refl)
    as (Hv & t & Hrun & _).
  exists t. split; [reflexivity|]. split; [exact Hv|exact Hrun].
Defined.

Lemma X14_register_once_witness :
  exists u w1,
    main.create_user ref_bcrypt_hash "salt" fresh_rng sample_signup
                     (world_of sample_db) = (Ret u, w1)
    /\ main.create_user ref_bcrypt_hash "pepper" colliding_rng
         (mkUserCreate "new@example.com" "other") w1
       = (Raise conflict, logged w1 [SELECT Users]).
Proof.
  eexists. eexists. split; [reflexivity|].
  exact (proj2 (X14_register_once ref_bcrypt_hash "salt" "pepper" fresh_rng
                  colliding_rng sample_signup "other" (world_of sample_db)
                  _ _ eq_refl)).
Defined.

Lemma X15_register_then_verify_witness :
  exists u w1 w2,
    main.create_user ref_bcrypt_hash "salt" fresh_rng sample_signup
                     (world_of sample_db) = (Ret u, w1)
    /\ main.verify_email "QWERTY" w1 = (Ret "Email successfully verified", w2).
Proof.
  eexists. eexists.
  destruct (X15_register_then_verify ref_bcrypt_hash "salt" fresh_rng
              sample_signup (world_of sample_db) _ _ eq_refl)
    as (code & w2 & Hcode & _ & Hrun & _).
  exists w2. split; [reflexivity|].
  injection Hcode as <-. exact Hrun.
Defined.

(** ** What the handlers leave alone *)

Ltac frame_done :=
  unfold logged, ret, raise; simpl;
  repeat split; intros; try discriminate; reflexivity.

Section Frames.
Variable bcrypt_hash : string -> string -> string.
Variable bcrypt_verify : string -> string -> bool.
Variable jwt_encode : pydict -> string -> string -> string.
Variable cloudinary_upload : string -> string.

(** X16. The two tables and the mail are kept apart: a request on contacts
    never changes the users table, a request on users (avatar, verify,
    register, login) never changes the contacts table, and no request but a
    registration hands a message to the mail server. *)
Theorem X16_tables_and_mail_are_kept_apart (r : main.request) (w : World) :
  let w' := snd (main.app bcrypt_hash bcrypt_verify jwt_encode
                          cloudinary_upload r w) in
  (contact_request r = true -> users (w_db w') = users (w_db w))
  /\ (contact_request r = false -> contacts (w_db w') = contacts (w_db w))
  /\ (is_registration r = false -> w_outbox w' = w_outbox w).
Proof.
  destruct r; unfold main.app; rewrite snd_bind_ret;
    simpl contact_request; simpl is_registration.
  - unfold main.update_avatar.
    destruct (negb (user_id =? User.id current_user)); [frame_done|].
    rewrite update_user_avatar_run. case_find; frame_done.
  - rewrite verify_email_run. case_find; frame_done.
  - rewrite create_user_run. case_find; [frame_done|].
    destruct (_ || _); frame_done.
  - rewrite login_run. frame_done.
  - unfold main.create_contact. rewrite create_contact_run.
    destruct (_ || _ || _); frame_done.
  - unfold main.read_contacts, bind. rewrite get_user_contacts_run.
    destruct (_ || _); frame_done.
  - unfold main.read_contact, bind. rewrite get_contact_run.
    case_find; frame_done.
  - unfold main.update_contact, crud.update_contact, bind.
    rewrite get_contact_run. case_find; [|frame_done].
    rewrite commit_contact_run.
    destruct (contact_eq_dec _ _); [|destruct (opt_mem_str _ _)];
      try rewrite refresh_contact_run; try case_find; frame_done.
  - unfold main.delete_contact, crud.delete_contact, bind.
    rewrite get_contact_run. case_find; [|frame_done].
    rewrite delete_commit_contact_run. frame_done.
  - unfold main.get_upcoming_birthdays, crud.get_upcoming_birthdays.
    unfold_session. simpl.
    destruct ((MINORDINAL <=? today + 7) && (today + 7 <=? MAXORDINAL));
      frame_done.
Qed.

(** X17. Every handler keeps the constraints [models.py] declares: if the
    primary keys and the unique columns hold no duplicate, every contact's
    owner is a stored user and the sequences are ahead of the stored keys
    before a request, the same holds after it, whatever the request and
    whether it succeeds or raises. *)
Theorem X17_handlers_keep_the_constraints
  (r : main.request) (w : World) (Hok : db_ok (w_db w) = true) :
  db_ok (w_db (snd (main.app bcrypt_hash bcrypt_verify jwt_encode
                             cloudinary_upload r w))) = true.
Proof.
  apply db_ok_consistent. apply app_consistent. apply db_ok_consistent.
  exact Hok.
Qed.

(** X18. The avatar handler: when the path id is not the caller's id it
    raises HTTP 403 and the world is untouched (no lookup, no upload
    result stored); when it is, no row of any table and no mail changes,
    and a returned object carries the caller's stored columns together
    with the URL the upload returned. *)
Theorem X18_update_avatar_touches_nothing
  (user_id : Z) (file : string) (cu : User.t) (w : World) :
  (user_id <> User.id cu ->
   main.update_avatar cloudinary_upload user_id file cu w = (Raise forbidden, w))
  /\
  (user_id = User.id cu ->
   exists r w',
     main.update_avatar cloudinary_upload user_id file cu w = (r, w')
     /\ w_db w' = w_db w
     /\ w_outbox w' = w_outbox w
     /\ forall x, r = Ret (Some x) ->
                  avatar_url x = Some (cloudinary_upload file)
                  /\ In (columns x) (users (w_db w))
                  /\ User.id (columns x) = user_id).
Proof. apply update_avatar_frame. Qed.
End Frames.

Lemma X17_handlers_keep_the_constraints_witness :
  db_ok (w_db (snd (main.app ref_bcrypt_hash ref_bcrypt_verify ref_jwt_encode
                             sample_upload
                             (main.PostContacts sample_new_contact sample_user)
                             (world_of sample_db)))) = true.
Proof.
  apply (X17_handlers_keep_the_constraints ref_bcrypt_hash ref_bcrypt_verify
           ref_jwt_encode sample_upload).
  reflexivity.
Defined.

Lemma X18_update_avatar_touches_nothing_witness :
  main.update_avatar sample_upload 2 "PNG" sample_user (world_of sample_db)
  = (Raise forbidden, world_of sample_db).
Proof.
  apply (X18_update_avatar_touches_nothing sample_upload 2 "PNG" sample_user
           (world_of sample_db)).
  simpl. discriminate.
Defined.

(** ** The verification code and the unscoped listing *)

(** X19. [code_generation(length)] returns, for every length and every
    outcome of the random draws, a string of exactly [length] characters,
    each one an upper-case letter or a digit; for length 0 it is the empty
    string. *)
Theorem X19_code_generation_shape (rng : nat -> nat) (n : nat) :
  String.length (crud.code_generation rng n) = n
  /\ Forall (fun c => In c (list_ascii_of_string
                              "ABCDEFGHIJKLMNOPQRSTUVWXYZ0123456789"))
            (list_ascii_of_string (crud.code_generation rng n))
  /\ crud.code_generation rng 0 = "".
Proof.
  destruct (code_generation_is_code rng n) as [Hlen Hall].
  split; [exact Hlen|]. split; [exact Hall|reflexivity].
Qed.

(** X20. [crud.get_contacts] is not scoped to an owner: with [skip] 0 and a
    [limit] at least the size of the table it returns every stored contact,
    whoever owns it, and [crud.get_user_contacts] under the same bounds
    returns exactly those of them whose [owner_id] is the user's id. *)
Theorem X20_get_contacts_is_unscoped
  (user_id limit : Z) (w : World)
  (Hall : Z.of_nat (List.length (contacts (w_db w))) <= limit) :
  crud.get_contacts 0 limit w
  = (Ret (contacts (w_db w)), logged w [SELECT Contacts])
  /\ crud.get_user_contacts user_id 0 limit w
     = (Ret (filter (owned_by user_id) (contacts (w_db w))),
        logged w [SELECT Contacts]).
Proof.
  assert (Hl : (limit <? 0) = false) by (apply Z.ltb_ge; lia).
  split.
  - unfold crud.get_contacts, query_contact_page. unfold_session. simpl.
    rewrite Hl. simpl.
    assert (Hid : forall l : list Contact.t, filter (fun _ => true) l = l).
    { induction l as [|c l IH]; simpl; congruence. }
    rewrite Hid, firstn_all2 by lia. reflexivity.
  - rewrite get_user_contacts_run. simpl. rewrite Hl.
    rewrite firstn_all2; [reflexivity|].
    assert (Hle : forall l : list Contact.t,
               (List.length (filter (owned_by user_id) l) <= List.length l)%nat).
    { induction l as [|c l IH]; simpl; [lia|].
      destruct (owned_by user_id c); simpl; lia. }
    specialize (Hle (contacts (w_db w))). lia.
Qed.

Lemma X20_get_contacts_is_unscoped_witness :
  crud.get_contacts 0 100 (world_of sample_db)
  = (Ret (contacts sample_db), logged (world_of sample_db) [SELECT Contacts]).
Proof.
  apply (X20_get_contacts_is_unscoped 1 100 (world_of sample_db)).
  simpl. lia.
Defined.

(** ** Repeating an update *)

Lemma setattrs_idempotent (upd : ContactUpdate) (c : Contact.t) :
  crud.setattrs upd (crud.setattrs upd c) = crud.setattrs upd c.
Proof.
  unfold crud.setattrs. simpl. destruct (cu_additional_info upd); reflexivity.
Qed.

(** X21. [crud.update_contact] is idempotent: after a successful update,
    the same update sent again returns the same row, finds nothing to
    write (the two statements sent are the lookup and the reload, no
    UPDATE) and leaves the database as the first update left it. *)
Theorem X21_update_contact_idempotent
  (contact_id user_id : Z) (upd : ContactUpdate) (w : World) (c : Contact.t)
  (Hpk : pk_contacts (w_db w) = true)
  (Hfind : find (owns contact_id user_id) (contacts (w_db w)) = Some c)
  (Hfree : forall r, In r (contacts (w_db w)) -> Contact.id r <> Contact.id c ->
                     Contact.email r <> Some (cu_email upd)) :
  exists c' w1,
    crud.update_contact contact_id upd user_id w = (Ret (Some c'), w1)
    /\ crud.update_contact contact_id upd user_id w1
       = (Ret (Some c'), logged w1 [SELECT Contacts; SELECT Contacts]).
Proof.
  destruct (update_contact_found contact_id user_id upd w c Hpk Hfind Hfree)
    as (l1 & l2 & w1 & Hl & Hne & Hid & Hown & Hrun & Hl1 & _).
  exists (crud.setattrs upd c), w1. split; [exact Hrun|].
  assert (Hagain : find (owns contact_id user_id) (contacts (w_db w1))
                   = Some (crud.setattrs upd c)).
  { rewrite Hl1. apply find_middle.
    - intros r Hr. unfold owns. apply andb_false_iff. left.
      apply Z.eqb_neq. rewrite <- Hid. apply Hne. apply in_or_app. auto.
    - apply owns_true. split; assumption. }
  unfold crud.update_contact, bind. rewrite get_contact_run, Hagain.
  rewrite commit_contact_run.
  destruct (contact_eq_dec _ _) as [_|E];
    [|exfalso; apply E; apply setattrs_idempotent].
  rewrite refresh_contact_run. simpl. rewrite Hl1.
  rewrite (find_middle _ l1 l2 (crud.setattrs upd c)).
  - unfold ret, logged. simpl. rewrite <- app_assoc. reflexivity.
  - intros r Hr. apply Z.eqb_neq. apply Hne. apply in_or_app. auto.
  - simpl. apply Z.eqb_refl.
Qed.

Lemma X21_update_contact_idempotent_witness :
  exists c' w1,
    crud.update_contact 2 sample_update 1 (world_of sample_db)
    = (Ret (Some c'), w1)
    /\ crud.update_contact 2 sample_update 1 w1
       = (Ret (Some c'), logged w1 [SELECT Contacts; SELECT Contacts]).
Proof.
  apply (X21_update_contact_idempotent 2 1 sample_update (world_of sample_db)
           (sample_contact 2 "b2@example.com" 739005 1) eq_refl eq_refl).
  simpl. intros r [<-|[<-|[<-|[<-|[]]]]] _; simpl; discriminate.
Defined.

(** ** The code space *)

Lemma map_nth_seq {A} (l : list A) (d : A) :
  map (fun i => nth i l d) (seq 0 (List.length l)) = l.
Proof.
  induction l as [|x l IH]; simpl; [reflexivity|].
  rewrite <- seq_shift, map_map. simpl. rewrite IH. reflexivity.
Qed.

Lemma indices_of_code (cs : list ascii) :
  Forall (fun c => In c alphabet) cs ->
  exists idx : list nat,
    List.length idx = List.length cs
    /\ map (fun i => nth (Nat.modulo i (List.length alphabet)) alphabet "000"%char)
           idx = cs.
Proof.
  induction 1 as [|c cs Hc _ IH].
  - exists []. split; reflexivity.
  - destruct IH as (idx & Hlen & Hmap).
    destruct (In_nth _ _ "000"%char Hc) as (k & Hk & Hnth).
    exists (k :: idx). split; [simpl; congruence|].
    rewrite map_cons, Hmap, Nat.mod_small by exact Hk.
    rewrite Hnth. reflexivity.
Qed.

(** X22. [code_generation] can produce every code of its shape: for every
    string of [n] upper-case letters and digits there are random draws for
    which [code_generation(n)] returns exactly that string; with X19, the
    possible codes are the strings of that shape and nothing else. *)
Theorem X22_code_generation_covers_the_code_space (n : nat) (s : string)
  (Hcode : is_code n s) :
  exists rng : nat -> nat, crud.code_generation rng n = s.
Proof.
  destruct Hcode as [Hlen Hall].
  destruct (indices_of_code _ Hall) as (idx & Hidx & Hmap).
  exists (fun i => nth i idx 0%nat).
  unfold crud.code_generation, random_choices. fold alphabet.
  rewrite <- (string_of_list_ascii_of_string s). f_equal.
  rewrite <- Hmap.
  assert (Hn : n = List.length idx).
  { rewrite Hidx, <- Hlen. clear.
    induction s as [|c s IH]; simpl; congruence. }
  rewrite Hn.
  transitivity
    (map (fun i => nth (Nat.modulo i (List.length alphabet)) alphabet "000"%char)
         (map (fun i => nth i idx 0%nat) (seq 0 (List.length idx)))).
  - rewrite map_map. reflexivity.
  - rewrite map_nth_seq. reflexivity.
Qed.

Lemma X22_code_generation_covers_the_code_space_witness :
  exists rng : nat -> nat, crud.code_generation rng 6 = "ABACAB".
Proof.
  apply (X22_code_generation_covers_the_code_space 6 "ABACAB").
  split; [reflexivity|].
  change (list_ascii_of_string "ABACAB")
    with ["A"; "B"; "A"; "C"; "A"; "B"]%char.
  repeat (apply Forall_cons;
          [first [left; reflexivity
                 |right; left; reflexivity
                 |right; right; left; reflexivity]|]).
  apply Forall_nil.
Defined.

(** ** Whole requests are thin *)

Lemma thin_request_public (ro : bool) (w w' : World) :
  thin ro w w' -> thin_request false ro w w'.
Proof.
  intros (qs & Hlog & H3 & H1 & Hro). exists [], qs. simpl.
  repeat split; try assumption; try lia; auto; apply Hro; assumption.
Qed.

Lemma thin_request_authenticated {A}
      (jwt_decode : string -> string -> list string -> Z -> option pydict)
      (utcnow : Z) (token : string) (handler : User.t -> M A) (ro : bool)
      (w : World) :
  (forall cu w1, thin ro w1 (snd (handler cu w1))) ->
  thin_request true ro w (snd (authenticated jwt_decode utcnow token handler w)).
Proof.
  intros Hh.
  assert (Hnothing : thin_request true ro w w).
  { exists [], []. simpl. rewrite app_nil_r. repeat split; auto; lia. }
  assert (Hlookup : thin_request true ro w (logged w [SELECT Users])).
  { exists [SELECT Users], []. simpl. repeat split; auto; lia. }
  unfold authenticated, bind. rewrite get_current_user_run.
  destruct (jwt_decode token security.SECRET_KEY [security.ALGORITHM] utcnow)
    as [payload|]; [|exact Hnothing].
  destruct (dict_get payload "sub") as [[email| | |]|]; try exact Hnothing.
  destruct (find (has_email email) (users (w_db w))) as [u|];
    [|exact Hlookup].
  destruct (Hh u (logged w [SELECT Users])) as (qs & Hlog & H3 & H1 & Hro).
  exists [SELECT Users], qs. simpl in *.
  rewrite Hlog, <- app_assoc. simpl.
  repeat split; auto; try lia; apply Hro; assumption.
Qed.

Section Requests.
Variable bcrypt_hash : string -> string -> string.
Variable bcrypt_verify : string -> string -> bool.
Variable jwt_encode : pydict -> string -> string -> string.
Variable jwt_decode : string -> string -> list string -> Z -> option pydict.
Variable cloudinary_upload : string -> string.

(** C8 (amended).  Every endpoint is a thin pass-through.  Handling a
    request, the dependency included, sends first, on the routes that
    declare a current user, at most the one SELECT on users by which
    [get_current_user] resolves it, and then at most three statements of
    the handler, at most one of which is a mutation (INSERT, UPDATE or
    DELETE): at most four statements in all.  The endpoints that only read
    (login, list contacts, read one contact, upcoming birthdays) send after
    that lookup at most one statement, send no mutation at all, and leave
    the database unchanged. *)
Theorem C8_requests_are_thin (c : call) (w : World) :
  thin_request (needs_user c) (reads_only c) w
    (snd (serve bcrypt_hash bcrypt_verify jwt_encode jwt_decode
                cloudinary_upload c w)).
Proof.
  destruct c; unfold serve; simpl needs_user; simpl reads_only;
    try (apply thin_request_authenticated; intros cu w1;
         apply (app_is_thin bcrypt_hash bcrypt_verify jwt_encode
                            cloudinary_upload));
    apply thin_request_public;
    apply (app_is_thin bcrypt_hash bcrypt_verify jwt_encode cloudinary_upload).
Qed.
End Requests.

(** The bounds are reached: an authenticated update that changes a contact
    sends the user lookup, the contact lookup, the UPDATE and the reload;
    an authenticated listing sends the user lookup and its query. *)
Lemma serve_reaches_the_bounds :
  let token :=
    security.create_access_token ref_jwt_encode 0
      [("sub", PStr "ann@example.com")] None in
  w_log (snd (serve ref_bcrypt_hash ref_bcrypt_verify ref_jwt_encode
                    ref_jwt_decode sample_upload
                    (CallUpdateContact 1000000 token 2 sample_update)
                    (world_of sample_db)))
  = [SELECT Users; SELECT Contacts; UPDATE Contacts; SELECT Contacts]
  /\ w_log (snd (serve ref_bcrypt_hash ref_bcrypt_verify ref_jwt_encode
                       ref_jwt_decode sample_upload
                       (CallReadContacts 1000000 token 0 100)
                       (world_of sample_db)))
     = [SELECT Users; SELECT Contacts].
Proof. split; vm_compute; reflexivity. Qed.
